(** * AnkiNotesCLI: a shallow embedding of [notes.py]

    The note-taking tool keeps three kinds of JSON files (a global
    configuration, one configuration per course, one note collection per
    course) and talks to two external services (a chat-completion
    endpoint and the flashcard application).  The development models

    - Python strings by [string], a character being a code point below
      256 (the Latin-1 range), with the string methods the tool calls;
    - JSON values by the inductive [json], a Python [dict] being an
      association list in insertion order;
    - the files by a finite map from path to content, the content being
      either the value [json.load] returns or text that does not parse;
    - the external services by functions of a [World] record, whose
      answers the commands thread through explicitly;
    - uncaught exceptions, caught exceptions and printed user errors by
      the constructors of [outcome]. *)

From Stdlib Require Import ZArith Ascii String DecimalString Sorted Permutation.
From stdpp Require Import gmap strings list fin_maps.

Local Open Scope Z_scope.

(** ** Python string methods *)

Module Str.

(** The cased characters of the Latin-1 range: [A-Z], and the accented
    capitals U+00C0..U+00DE without the multiplication sign U+00D7.
    Each has its lower-case form 32 code points further. *)
Definition is_upper (c : ascii) : bool :=
  let n := N_of_ascii c in
  ((65 <=? n) && (n <=? 90) || (192 <=? n) && (n <=? 214)
   || (216 <=? n) && (n <=? 222))%N.

Definition lower_char (c : ascii) : ascii :=
  if is_upper c then ascii_of_N (N_of_ascii c + 32) else c.

(** [str.isspace] on one character of the Latin-1 range. *)
Definition is_space (c : ascii) : bool :=
  let n := N_of_ascii c in
  ((9 <=? n) && (n <=? 13) || (28 <=? n) && (n <=? 32)
   || (n =? 133) || (n =? 160))%N.

Fixpoint map (f : ascii -> ascii) (s : string) : string :=
  match s with
  | EmptyString => EmptyString
  | String c s' => String (f c) (map f s')
  end.

(** [s.lower()] *)
Definition lower (s : string) : string := map lower_char s.

Fixpoint drop (n : nat) (s : string) : string :=
  match n, s with
  | O, _ => s
  | S _, EmptyString => EmptyString
  | S n', String _ s' => drop n' s'
  end.

(** [sub in s] *)
Fixpoint contains (sub s : string) : bool :=
  String.prefix sub s ||
  match s with
  | EmptyString => false
  | String _ s' => contains sub s'
  end.

(** [skip] characters of an occurrence of [old] are still to be passed
    over; otherwise an occurrence starting here is replaced. *)
Fixpoint replace_from (old new : string) (skip : nat) (s : string) : string :=
  match s with
  | EmptyString => EmptyString
  | String c s' =>
      match skip with
      | S k => replace_from old new k s'
      | O =>
          if String.prefix old s
          then new +:+ replace_from old new (String.length old - 1) s'
          else String c (replace_from old new O s')
      end
  end.

Fixpoint intersperse (new s : string) : string :=
  match s with
  | EmptyString => new
  | String c s' => new +:+ String c (intersperse new s')
  end.

(** [s.replace(old, new)]: every occurrence, left to right, without
    overlap; an empty [old] matches before each character and at the end. *)
Definition replace (old new s : string) : string :=
  match old with
  | EmptyString => intersperse new s
  | _ => replace_from old new O s
  end.

(** The text before the first occurrence of [sep] and the text after it. *)
Fixpoint split_once (sep s : string) : option (string * string) :=
  if String.prefix sep s then Some (EmptyString, drop (String.length sep) s)
  else
    match s with
    | EmptyString => None
    | String c s' =>
        match split_once sep s' with
        | Some (a, b) => Some (String c a, b)
        | None => None
        end
    end.

Fixpoint split_fuel (fuel : nat) (sep s : string) : list string :=
  match fuel with
  | O => [s]
  | S fuel' =>
      match split_once sep s with
      | None => [s]
      | Some (a, b) => a :: split_fuel fuel' sep b
      end
  end.

(** [s.split(sep)] for a non-empty [sep] (Python raises [ValueError] on
    an empty one; the tool only passes literals).  Every cut consumes at
    least one character, so [length s] cuts are enough. *)
Definition split (sep s : string) : list string :=
  split_fuel (String.length s) sep s.

Fixpoint lstrip (s : string) : string :=
  match s with
  | EmptyString => EmptyString
  | String c s' => if is_space c then lstrip s' else s
  end.

Fixpoint rstrip (s : string) : string :=
  match s with
  | EmptyString => EmptyString
  | String c s' =>
      match rstrip s' with
      | EmptyString => if is_space c then EmptyString else String c EmptyString
      | r => String c r
      end
  end.

(** [s.strip()] *)
Definition strip (s : string) : string := rstrip (lstrip s).

End Str.

(** [sanitize_filename], line 72. *)
Definition sanitize_filename (name : string) : string :=
  Str.replace "/" "_" (Str.replace " " "_" (Str.lower name)).

(** ** JSON values and Python dictionaries *)

(** What [json.load] returns.  A [dict] keeps its keys in insertion
    order, so it is an association list; numbers are integers. *)
#[warning="-register-all"]
Inductive json : Type :=
| JNull
| JBool (b : bool)
| JNum (n : Z)
| JStr (s : string)
| JArr (l : list json)
| JObj (kv : list (string * json)).

Abbreviation dict := (list (string * json)).

(** Python truth value: [None], [False], [0], the empty string and the
    empty containers are false. *)
Definition truthy (j : json) : bool :=
  match j with
  | JNull => false
  | JBool b => b
  | JNum n => negb (n =? 0)
  | JStr s => negb (String.eqb s "")
  | JArr l => negb (bool_decide (l = []))
  | JObj kv => negb (bool_decide (kv = []))
  end.

Fixpoint dict_get (k : string) (d : dict) : option json :=
  match d with
  | [] => None
  | (k', v) :: d' => if String.eqb k' k then Some v else dict_get k d'
  end.

(** [d[k] = v]: an existing key keeps its place, a new one goes last. *)
Fixpoint dict_set (k : string) (v : json) (d : dict) : dict :=
  match d with
  | [] => [(k, v)]
  | (k', v') :: d' =>
      if String.eqb k' k then (k', v) :: d' else (k', v') :: dict_set k v d'
  end.

Definition keys (d : dict) : list string := d.*1.

Inductive exn : Type :=
| AttributeError
| TypeError
| KeyError
| IndexError
| ValueError
| JSONDecodeError
| RequestError
| AnkiError.

(** [j.get(k, dflt)]: only a dict has the method. *)
Definition py_get (j : json) (k : string) (dflt : json) : exn + json :=
  match j with
  | JObj d => inr (default dflt (dict_get k d))
  | _ => inl AttributeError
  end.

(** [j[k]] for a string [k]. *)
Definition subscript (j : json) (k : string) : exn + json :=
  match j with
  | JObj d =>
      match dict_get k d with
      | Some v => inr v
      | None => inl KeyError
      end
  | _ => inl TypeError
  end.

(** [j[k] = v] for a string [k]. *)
Definition setitem (j : json) (k : string) (v : json) : exn + json :=
  match j with
  | JObj d => inr (JObj (dict_set k v d))
  | _ => inl TypeError
  end.

(** The key [json.dump] writes for a dictionary key; lists and dicts
    cannot be keys at all. *)
Definition dump_key (j : json) : exn + string :=
  match j with
  | JStr s => inr s
  | JNum n => inr (NilZero.string_of_int (Z.to_int n))
  | JBool true => inr "true"
  | JBool false => inr "false"
  | JNull => inr "null"
  | JArr _ | JObj _ => inl TypeError
  end.

(** ** Files *)

(** The content of a file, as [json.load] sees it. *)
Inductive fcontent : Type :=
| Parsed (j : json)
| Malformed.

Abbreviation disk := (gmap string fcontent).

Definition CONFIG_FILE : string := ".notes_config.json".

Definition course_file (name : string) : string :=
  "courses/" +:+ sanitize_filename name +:+ ".json".

Definition notes_file (name : string) : string :=
  "courses/" +:+ sanitize_filename name +:+ "_notes.json".

Definition default_global_config : json := JObj [("current_course", JNull)].

(** [load_global_config], line 41. *)
Definition load_global_config (d : disk) : json :=
  match d !! CONFIG_FILE with
  | None => default_global_config
  | Some Malformed => default_global_config
  | Some (Parsed j) => j
  end.

(** [save_global_config], line 52. *)
Definition save_global_config (config : json) (d : disk) : disk :=
  <[CONFIG_FILE := Parsed config]> d.

(** The course name comes out of the global configuration, so it is any
    JSON value; [sanitize_filename] calls [.lower()] on it. *)
Definition course_path (course_name : json) : exn + string :=
  match course_name with
  | JStr s => inr (course_file s)
  | _ => inl AttributeError
  end.

(** [load_course_config], line 57; Python's [None] is [JNull]. *)
Definition load_course_config (course_name : json) (d : disk) : exn + json :=
  match course_path course_name with
  | inl e => inl e
  | inr p =>
      match d !! p with
      | None => inr JNull
      | Some Malformed => inl JSONDecodeError
      | Some (Parsed j) => inr j
      end
  end.

(** [save_course_config], line 66. *)
Definition save_course_config (course_name : json) (config : json) (d : disk)
  : exn + disk :=
  match course_path course_name with
  | inl e => inl e
  | inr p => inr (<[p := Parsed config]> d)
  end.

(** ** The outside world *)

(** A call the sync engine makes to the flashcard application. *)
Inductive call : Type :=
| CreateDeck (name : json)
| AddNote (deck model : json) (fields : list (json * json)) (tags : list string).

(** Everything the commands obtain from outside the files: the clock,
    the environment, the enrichment endpoint, the flashcard application
    (a state [A] and its two operations, each of which may raise), and
    the library functions taken as given. *)
Record World (A : Type) : Type := {
  now : string;
  OPENAI_API_KEY : option string;
  default_ai_prompt : string;
  language_ai_prompt : string;
  str_format : string -> json -> string -> json -> string -> string -> exn + string;
  chat_completion : string -> string -> exn + string;
  json_loads : string -> option json;
  py_repr : json -> string;
  anki_importable : bool;
  create_deck : json -> A -> A * option exn;
  add_note : json -> json -> list (json * json) -> list string -> A -> A * option exn
}.

Arguments now {A} w.
Arguments OPENAI_API_KEY {A} w.
Arguments default_ai_prompt {A} w.
Arguments language_ai_prompt {A} w.
Arguments str_format {A} w.
Arguments chat_completion {A} w.
Arguments json_loads {A} w.
Arguments py_repr {A} w.
Arguments anki_importable {A} w.
Arguments create_deck {A} w.
Arguments add_note {A} w.

(** ** Command results *)

Inductive user_error : Type :=
| NoCourseSelected
| NoApiKey
| NoAnkiModule.

Inductive notice : Type :=
| NoNotesFound
| AllSynced.

(** One line of the sync report. *)
Inductive sync_line : Type :=
| Synced (term : string)
| Failed (term : string) (e : exn).

Inductive report : Type :=
| CourseSet (created : bool)
| LevelSet
| NoteAdded (term_key note : json)
| SyncComplete (lines : list sync_line) (synced_count total : nat)
| Listed (recent : list (string * json)).

(** How a command ends: it completes, it prints a formatted error or a
    notice and returns, it prints an exception caught by its [try], or an
    exception leaves it. *)
Inductive outcome : Type :=
| Done (r : report)
| UserError (e : user_error)
| Notice (n : notice)
| Caught (e : exn)
| Uncaught (e : exn).

Definition selected_course (d : disk) : exn + json :=
  py_get (load_global_config d) "current_course" JNull.

(** [cmd_level], line 188. *)
Definition cmd_level (level : string) (d : disk) : outcome * disk :=
  match selected_course d with
  | inl e => (Uncaught e, d)
  | inr current_course =>
      if negb (truthy current_course) then (UserError NoCourseSelected, d)
      else
        match load_course_config current_course d with
        | inl e => (Uncaught e, d)
        | inr course_config =>
            match setitem course_config "current_level" (JStr level) with
            | inl e => (Uncaught e, d)
            | inr course_config' =>
                match save_course_config current_course course_config' d with
                | inl e => (Uncaught e, d)
                | inr d' => (Done LevelSet, d')
                end
            end
        end
  end.

(** The configuration [cmd_course] writes for a new course, line 155. *)
Definition new_course_config {A} (w : World A) (course_name : string)
    (is_language : bool) (ai_prompt : string) : json :=
  JObj [
    ("course_name", JStr course_name);
    ("created", JStr (now w));
    ("is_language", JBool is_language);
    ("current_level", JNull);
    ("ai_prompt", JStr ai_prompt);
    ("anki", JObj [
       ("deck_name", JStr course_name);
       ("model_name", JStr (course_name +:+ " (Notes)"));
       ("use_sub_decks", JBool true)]);
    ("fields", JObj [
       ("term", JStr "Term");
       ("translation", JStr (if is_language then "Translation" else "Explanation"));
       ("example", JStr "Example");
       ("example_translation", JStr "Example Explanation");
       ("notes", JStr "Notes");
       ("pronunciation", if is_language then JStr "Pronunciation" else JNull)])
  ].

(** [cmd_course], line 128; [answer1] and [answer2] are the two lines
    typed at the prompts, read only when the course is new. *)
Definition cmd_course {A} (w : World A) (name answer1 answer2 : string)
    (d : disk) : outcome * disk :=
  let global_config := load_global_config d in
  match load_course_config (JStr name) d with
  | inl e => (Uncaught e, d)
  | inr loaded =>
      let '(course_config, d1, created) :=
        match loaded with
        | JNull =>
            let is_language :=
              String.eqb (Str.lower (Str.strip answer1)) "y" in
            let default_prompt :=
              if is_language then language_ai_prompt w else default_ai_prompt w in
            let custom_prompt := Str.strip answer2 in
            let ai_prompt :=
              if String.eqb custom_prompt "" then default_prompt else custom_prompt in
            let cfg := new_course_config w name is_language ai_prompt in
            (cfg, <[course_file name := Parsed cfg]> d, true)
        | _ => (loaded, d, false)
        end in
      match setitem global_config "current_course" (JStr name) with
      | inl e => (Uncaught e, d1)
      | inr global_config' =>
          let d2 := save_global_config global_config' d1 in
          match py_get course_config "current_level" JNull with
          | inl e => (Uncaught e, d2)
          | inr _ => (Done (CourseSet created), d2)
          end
      end
  end.

(** ** Note creation *)

(** [l[i]] for a list and a natural index. *)
Definition index {X} (l : list X) (i : nat) : exn + X :=
  match l !! i with
  | Some x => inr x
  | None => inl IndexError
  end.

(** [ai_response.split(marker)[1].split("```")[0].strip()], lines 266 and 268. *)
Definition fenced (marker ai_response : string) : exn + string :=
  match index (Str.split marker ai_response) 1 with
  | inl e => inl e
  | inr after =>
      match index (Str.split "```" after) 0 with
      | inl e => inl e
      | inr body => inr (Str.strip body)
      end
  end.

(** The text handed to [json.loads], lines 265-268. *)
Definition extract_payload (ai_response : string) : exn + string :=
  if Str.contains "```json" ai_response then fenced "```json" ai_response
  else if Str.contains "```" ai_response then fenced "```" ai_response
  else inr ai_response.

(** An optional argument that passes the test [if args.x:]: given and
    not empty. *)
Definition given (o : option string) : option string :=
  match o with
  | Some s => if String.eqb s "" then None else Some s
  | None => None
  end.

Definition newline : string := String (ascii_of_nat 10) EmptyString.

Definition context_section (context : option string) : string :=
  match given context with
  | Some c => newline +:+ "Context/Example: " +:+ c
  | None => ""
  end.

Definition grammar_section (grammar : option string) : string :=
  match given grammar with
  | Some g => newline +:+ "Additional info: " +:+ g
  | None => ""
  end.

(** The notes file as [cmd_new] reads it, lines 216-224: a missing or
    malformed file is an empty dict. *)
Definition load_notes_lenient (p : string) (d : disk) : json :=
  match d !! p with
  | Some (Parsed j) => j
  | Some Malformed => JObj []
  | None => JObj []
  end.

Definition notes_path (course_name : json) : exn + string :=
  match course_name with
  | JStr s => inr (notes_file s)
  | _ => inl AttributeError
  end.

(** [note_data[k] = JStr s] when the option is given. *)
Definition set_given (k : string) (o : option string) (note_data : json)
  : exn + json :=
  match given o with
  | Some s => setitem note_data k (JStr s)
  | None => inr note_data
  end.

(** [l[n] = v] for a list and an integer index, negative ones counting
    from the end. *)
Definition list_setitem (l : list json) (n : Z) (v : json) : exn + json :=
  let len := Z.of_nat (length l) in
  let i := if n <? 0 then n + len else n in
  if (0 <=? i) && (i <? len) then inr (JArr (<[Z.to_nat i := v]> l))
  else inl IndexError.

(** [notes_data[term_key] = note_data], line 285, as the next
    [json.load] of the written file sees it: a key that is not a string
    is written as its JSON text. *)
Definition store_note (notes_data term_key note_data : json) : exn + json :=
  match notes_data with
  | JObj kv =>
      match dump_key term_key with
      | inl e => inl e
      | inr k => inr (JObj (dict_set k note_data kv))
      end
  | JArr l =>
      match term_key with
      | JNum n => list_setitem l n note_data
      | JBool b => list_setitem l (if b then 1 else 0) note_data
      | _ => inl TypeError
      end
  | _ => inl TypeError
  end.

(** The metadata added to the parsed reply, lines 273-281. *)
Definition add_metadata {A} (w : World A) (level : json)
    (context grammar : option string) (note_data : json) : exn + json :=
  match setitem note_data "added" (JStr (now w)) with
  | inl e => inl e
  | inr n1 =>
      match setitem n1 "level" level with
      | inl e => inl e
      | inr n2 =>
          match setitem n2 "synced" (JBool false) with
          | inl e => inl e
          | inr n3 =>
              match set_given "context" context n3 with
              | inl e => inl e
              | inr n4 => set_given "grammar" grammar n4
              end
          end
      end
  end.

(** The body of the [try], lines 247-289, up to the write: the note and
    the collection to write. *)
Definition enrich {A} (w : World A) (api_key prompt phrase : string)
    (level : json) (context grammar : option string) (notes_data : json)
  : exn + (json * json * json) :=
  match chat_completion w api_key prompt with
  | inl e => inl e
  | inr ai_response =>
      match extract_payload ai_response with
      | inl e => inl e
      | inr payload =>
          match json_loads w payload with
          | None => inl JSONDecodeError
          | Some parsed =>
              match add_metadata w level context grammar parsed with
              | inl e => inl e
              | inr note_data =>
                  match py_get note_data "term" (JStr phrase) with
                  | inl e => inl e
                  | inr term_key =>
                      match store_note notes_data term_key note_data with
                      | inl e => inl e
                      | inr notes_data' => inr (term_key, note_data, notes_data')
                      end
                  end
              end
          end
      end
  end.

(** The prompt, lines 227-237. *)
Definition build_prompt {A} (w : World A) (course_config : json)
    (phrase : string) (context grammar : option string)
  : exn + (json * string) :=
  match py_get course_config "current_level" (JStr "general") with
  | inl e => inl e
  | inr level =>
      match subscript course_config "ai_prompt" with
      | inl e => inl e
      | inr (JStr template) =>
          match subscript course_config "course_name" with
          | inl e => inl e
          | inr course =>
              match str_format w template course phrase level
                      (context_section context) (grammar_section grammar) with
              | inl e => inl e
              | inr prompt => inr (level, prompt)
              end
          end
      | inr _ => inl AttributeError
      end
  end.

Definition api_key {A} (w : World A) : option string := given (OPENAI_API_KEY w).

(** [cmd_new], line 204. *)
Definition cmd_new {A} (w : World A) (phrase : string)
    (context grammar : option string) (d : disk) : outcome * disk :=
  match selected_course d with
  | inl e => (Uncaught e, d)
  | inr current_course =>
      if negb (truthy current_course) then (UserError NoCourseSelected, d)
      else
        match load_course_config current_course d with
        | inl e => (Uncaught e, d)
        | inr course_config =>
            match notes_path current_course with
            | inl e => (Uncaught e, d)
            | inr p =>
                let notes_data := load_notes_lenient p d in
                match build_prompt w course_config phrase context grammar with
                | inl e => (Uncaught e, d)
                | inr (level, prompt) =>
                    match api_key w with
                    | None => (UserError NoApiKey, d)
                    | Some key =>
                        match enrich w key prompt phrase level context grammar
                                notes_data with
                        | inl e => (Caught e, d)
                        | inr (term_key, note_data, notes_data') =>
                            (Done (NoteAdded term_key note_data),
                             <[p := Parsed notes_data']> d)
                        end
                    end
                end
            end
        end
  end.

(** ** Synchronisation *)

#[global] Instance exn_ret : MRet (sum exn) := fun X x => inr x.

#[global] Instance exn_bind : MBind (sum exn) := fun X Y f m =>
  match m with
  | inl e => inl e
  | inr x => f x
  end.

(** [str(j)] inside an f-string. *)
Definition py_str {A} (w : World A) (j : json) : string :=
  match j with
  | JStr s => s
  | _ => py_repr w j
  end.

Definition note_get (note : dict) (k : string) (dflt : json) : json :=
  default dflt (dict_get k note).

(** The dict comprehension of line 325: the entries whose [synced] is
    not true; [v.get] raises on a value that is not a dict. *)
Fixpoint unsynced_of (items : dict) : exn + list (string * dict) :=
  match items with
  | [] => inr []
  | (k, v) :: rest =>
      match v with
      | JObj note =>
          match unsynced_of rest with
          | inl e => inl e
          | inr u =>
              inr (if truthy (note_get note "synced" (JBool false)) then u
                   else (k, note) :: u)
          end
      | _ => inl AttributeError
      end
  end.

(** Lines 351-354. *)
Definition target_deck {A} (w : World A) (course_config deck_name : json)
    (note : dict) : exn + json :=
  anki ← subscript course_config "anki";
  use_sub_decks ← subscript anki "use_sub_decks";
  if truthy use_sub_decks && truthy (note_get note "level" JNull)
  then level ← subscript (JObj note) "level";
       mret (JStr (py_str w deck_name +:+ "::" +:+ py_str w level))
  else mret deck_name.

Definition hashable (j : json) : bool :=
  match j with
  | JArr _ | JObj _ => false
  | _ => true
  end.

(** Equality of two hashable values as dictionary keys: [True] is [1]. *)
Definition key_eqb (a b : json) : bool :=
  match a, b with
  | JStr s, JStr t => String.eqb s t
  | JNull, JNull => true
  | JBool x, JBool y => Bool.eqb x y
  | JNum n, JNum m => n =? m
  | JBool x, JNum m | JNum m, JBool x => (if x then 1 else 0) =? m
  | _, _ => false
  end.

Fixpoint fields_set (k v : json) (fs : list (json * json)) : list (json * json) :=
  match fs with
  | [] => [(k, v)]
  | (k', v') :: fs' =>
      if key_eqb k' k then (k', v) :: fs' else (k', v') :: fields_set k v fs'
  end.

(** [fields[k] = v] *)
Definition field_assign (k v : json) (fs : list (json * json))
  : exn + list (json * json) :=
  if hashable k then inr (fields_set k v fs) else inl TypeError.

(** [course_config['fields'][name]] *)
Definition field_name (course_config : json) (name : string) : exn + json :=
  fields ← subscript course_config "fields";
  subscript fields name.

(** Lines 359-376. *)
Definition build_fields (course_config : json) (term : string) (note : dict)
  : exn + list (json * json) :=
  k1 ← field_name course_config "term";
  k2 ← field_name course_config "example";
  k3 ← field_name course_config "notes";
  f1 ← field_assign k1 (note_get note "term" (JStr term)) [];
  f2 ← field_assign k2 (note_get note "example" (JStr "")) f1;
  f3 ← field_assign k3 (note_get note "notes" (JStr "")) f2;
  kt ← field_name course_config "translation";
  f4 ← (if truthy kt
        then let trans_key :=
               if bool_decide (is_Some (dict_get "translation" note))
               then "translation" else "explanation" in
             field_assign kt (note_get note trans_key (JStr "")) f3
        else mret f3);
  ke ← field_name course_config "example_translation";
  f5 ← (if truthy ke
        then field_assign ke (note_get note "example_translation" (JStr "")) f4
        else mret f4);
  fields ← subscript course_config "fields";
  kp ← py_get fields "pronunciation" JNull;
  if truthy kp && truthy (note_get note "pronunciation" JNull)
  then pronunciation ← subscript (JObj note) "pronunciation";
       field_assign kp pronunciation f5
  else mret f5.

(** [course_config['anki']['model_name']] *)
Definition model_name (course_config : json) : exn + json :=
  anki ← subscript course_config "anki";
  subscript anki "model_name".

(** The part of the [try] body that talks to the flashcard application,
    lines 350-384: the new state of the application, the calls made, and
    the exception raised, if any. *)
Definition push_note {A} (w : World A) (course_config deck_name : json)
    (course term : string) (note : dict) (a : A)
  : A * list call * option exn :=
  match target_deck w course_config deck_name note with
  | inl e => (a, [], Some e)
  | inr target =>
      match create_deck w target a with
      | (a1, Some e) => (a1, [CreateDeck target], Some e)
      | (a1, None) =>
          match build_fields course_config term note with
          | inl e => (a1, [CreateDeck target], Some e)
          | inr fields =>
              match model_name course_config with
              | inl e => (a1, [CreateDeck target], Some e)
              | inr model =>
                  let tags := [sanitize_filename course] in
                  let '(a2, r) := add_note w target model fields tags a1 in
                  (a2, [CreateDeck target; AddNote target model fields tags], r)
              end
          end
      end
  end.

(** [notes_data[term]['synced'] = True], line 387. *)
Definition mark_synced (term : string) (notes_data : dict) : exn + dict :=
  note ← subscript (JObj notes_data) term;
  note' ← setitem note "synced" (JBool true);
  mret (dict_set term note' notes_data).

(** The state of the loop of line 348. *)
Record sync_state (A : Type) : Type := {
  anki_state : A;
  calls : list call;
  lines : list sync_line;
  notes_data : dict;
  synced_count : nat
}.

Arguments anki_state {A} s.
Arguments calls {A} s.
Arguments lines {A} s.
Arguments notes_data {A} s.
Arguments synced_count {A} s.

(** One turn of the loop: the [try] body and its [except]. *)
Definition sync_step {A} (w : World A) (course_config deck_name : json)
    (course : string) (st : sync_state A) (item : string * dict)
  : sync_state A :=
  let '(term, note) := item in
  let '(a1, cs, r) :=
    push_note w course_config deck_name course term note (anki_state st) in
  match r with
  | Some e =>
      {| anki_state := a1; calls := calls st ++ cs;
         lines := lines st ++ [Failed term e];
         notes_data := notes_data st; synced_count := synced_count st |}
  | None =>
      match mark_synced term (notes_data st) with
      | inl e =>
          {| anki_state := a1; calls := calls st ++ cs;
             lines := lines st ++ [Failed term e];
             notes_data := notes_data st; synced_count := synced_count st |}
      | inr notes_data' =>
          {| anki_state := a1; calls := calls st ++ cs;
             lines := lines st ++ [Synced term];
             notes_data := notes_data'; synced_count := S (synced_count st) |}
      end
  end.

Definition sync_loop {A} (w : World A) (course_config deck_name : json)
    (course : string) (unsynced : list (string * dict)) (st : sync_state A)
  : sync_state A :=
  foldl (sync_step w course_config deck_name course) st unsynced.

(** [course_config['anki']['deck_name']], line 342. *)
Definition top_deck (course_config : json) : exn + json :=
  anki ← subscript course_config "anki";
  subscript anki "deck_name".

(** [cmd_sync], line 304: the outcome, the files, the state of the
    flashcard application and the calls made to it. *)
Definition cmd_sync {A} (w : World A) (d : disk) (a : A)
  : outcome * disk * A * list call :=
  match selected_course d with
  | inl e => (Uncaught e, d, a, [])
  | inr current_course =>
      if negb (truthy current_course) then (UserError NoCourseSelected, d, a, [])
      else
        match current_course with
        | JStr course =>
            match d !! notes_file course with
            | None => (Notice NoNotesFound, d, a, [])
            | Some Malformed => (Uncaught JSONDecodeError, d, a, [])
            | Some (Parsed (JObj items)) =>
                match unsynced_of items with
                | inl e => (Uncaught e, d, a, [])
                | inr [] => (Notice AllSynced, d, a, [])
                | inr unsynced =>
                    if negb (anki_importable w) then (UserError NoAnkiModule, d, a, [])
                    else
                      match load_course_config current_course d with
                      | inl e => (Uncaught e, d, a, [])
                      | inr course_config =>
                          match top_deck course_config with
                          | inl e => (Uncaught e, d, a, [])
                          | inr deck_name =>
                              match create_deck w deck_name a with
                              | (a0, Some e) =>
                                  (Uncaught e, d, a0, [CreateDeck deck_name])
                              | (a0, None) =>
                                  let st :=
                                    sync_loop w course_config deck_name course unsynced
                                      {| anki_state := a0;
                                         calls := [CreateDeck deck_name];
                                         lines := [];
                                         notes_data := items;
                                         synced_count := 0 |} in
                                  (Done (SyncComplete (lines st) (synced_count st)
                                           (length unsynced)),
                                   <[notes_file course := Parsed (JObj (notes_data st))]> d,
                                   anki_state st, calls st)
                              end
                          end
                      end
                end
            | Some (Parsed _) => (Uncaught AttributeError, d, a, [])
            end
        | _ => (Uncaught AttributeError, d, a, [])
        end
  end.

(** ** Listing *)

(** [sorted(..., key=..., reverse=True)] on entries decorated with a
    string key: greatest key first, entries with equal keys in their
    original order. *)
Fixpoint insert_desc {X} (x : string * X) (l : list (string * X))
  : list (string * X) :=
  match l with
  | [] => [x]
  | y :: l' => if String.ltb x.1 y.1 then y :: insert_desc x l' else x :: l
  end.

Definition sorted_desc {X} (l : list (string * X)) : list (string * X) :=
  foldr insert_desc [] l.

(** The key function of line 419, [x[1].get('added', '')], applied to
    every entry before any comparison. *)
Fixpoint decorate (items : dict) : exn + list (json * (string * json)) :=
  match items with
  | [] => inr []
  | (term, note) :: rest =>
      key ← py_get note "added" (JStr "");
      keyed ← decorate rest;
      mret ((key, (term, note)) :: keyed)
  end.

(** The keys as strings, when they all are.  The order Python gives to
    other values (or its refusal to compare them) is not modelled. *)
Fixpoint string_keys {X} (l : list (json * X)) : option (list (string * X)) :=
  match l with
  | [] => Some []
  | (JStr s, x) :: l' =>
      match string_keys l' with
      | Some r => Some ((s, x) :: r)
      | None => None
      end
  | _ :: _ => None
  end.

(** [l[:limit]] *)
Definition slice_to {X} (limit : Z) (l : list X) : list X :=
  if limit <? 0 then take (length l - Z.to_nat (- limit)) l
  else take (Z.to_nat limit) l.

(** Line 421; [number] is the integer argparse delivers (5 by default). *)
Definition list_limit (number : Z) : Z := if number =? 0 then 5 else number.

(** [cmd_list], line 401.  [None] stands for a run that needs the order
    of [added] values that are not all strings. *)
Definition cmd_list (number : Z) (d : disk) : option (outcome * disk) :=
  match selected_course d with
  | inl e => Some (Uncaught e, d)
  | inr current_course =>
      if negb (truthy current_course) then Some (UserError NoCourseSelected, d)
      else
        match notes_path current_course with
        | inl e => Some (Uncaught e, d)
        | inr p =>
            match d !! p with
            | None => Some (Notice NoNotesFound, d)
            | Some Malformed => Some (Uncaught JSONDecodeError, d)
            | Some (Parsed (JObj items)) =>
                match decorate items with
                | inl e => Some (Uncaught e, d)
                | inr keyed =>
                    match string_keys keyed with
                    | None => None
                    | Some l =>
                        let sorted_notes := (sorted_desc l).*2 in
                        let recent := slice_to (list_limit number) sorted_notes in
                        Some (Done (Listed recent), d)
                    end
                end
            | Some (Parsed _) => Some (Uncaught AttributeError, d)
            end
        end
  end.

(** ** The command line *)

Inductive command : Type :=
| Course (name answer1 answer2 : string)
| Level (level : string)
| New (phrase : string) (context grammar : option string)
| Sync
| ListRecent (number : Z).

(** One invocation of the tool: the files and the flashcard application
    before and after, and what the user sees. *)
Definition run {A} (w : World A) (c : command) (d : disk) (a : A)
  : option (outcome * disk * A) :=
  match c with
  | Course name answer1 answer2 =>
      let '(o, d') := cmd_course w name answer1 answer2 d in Some (o, d', a)
  | Level level =>
      let '(o, d') := cmd_level level d in Some (o, d', a)
  | New phrase context grammar =>
      let '(o, d') := cmd_new w phrase context grammar d in Some (o, d', a)
  | Sync =>
      let '(o, d', a', _) := cmd_sync w d a in Some (o, d', a')
  | ListRecent number =>
      match cmd_list number d with
      | Some (o, d') => Some (o, d', a)
      | None => None
      end
  end.

(** ** A small world to run the commands in

    The flashcard application records the calls it accepts and refuses
    every card for the deck ["French::Advanced"]; the endpoint answers every
    prompt with an empty JSON object inside a fence. *)

Definition toy_json_loads (s : string) : option json :=
  if String.eqb s "{}" then Some (JObj [])
  else if String.eqb s "[]" then Some (JArr [])
  else if String.eqb s "null" then Some JNull
  else None.

Definition toy_world_reply (reply : exn + string) : World (list call) := {|
  now := "2024-05-01T10:00:00";
  OPENAI_API_KEY := Some "sk-test";
  default_ai_prompt := "Explain {phrase} for {course}.";
  language_ai_prompt := "Translate {phrase} for {course}.";
  str_format := fun template _ phrase _ cs gs =>
    inr (template +:+ phrase +:+ cs +:+ gs);
  chat_completion := fun _ _ => reply;
  json_loads := toy_json_loads;
  py_repr := fun _ => "None";
  anki_importable := true;
  create_deck := fun name a => (a ++ [CreateDeck name], None);
  add_note := fun deck model fields tags a =>
    match deck with
    | JStr "French::Advanced" => (a, Some AnkiError)
    | _ => (a ++ [AddNote deck model fields tags], None)
    end
|}.

Definition toy_world : World (list call) := toy_world_reply (inr "```json {} ```").

(** ** The string methods on examples *)

Example sanitize_ex1 : sanitize_filename "My Course/HSK 3" = "my_course_hsk_3".
Proof. reflexivity. Qed.

Example split_ex1 : Str.split "```" "a```b```c" = ["a"; "b"; "c"].
Proof. reflexivity. Qed.

Example split_ex2 : Str.split "```" "```b" = [""; "b"].
Proof. reflexivity. Qed.

Example split_ex3 : Str.split "ab" "xabab" = ["x"; ""; ""].
Proof. reflexivity. Qed.

Example strip_ex1 : Str.strip "  a b  " = "a b".
Proof. reflexivity. Qed.

Example replace_ex1 : Str.replace "aa" "b" "aaaxaa" = "baxb".
Proof. reflexivity. Qed.

Example replace_ex2 : Str.replace "" "-" "ab" = "-a-b-".
Proof. reflexivity. Qed.

(** ** Sanitized file names *)















(** ** Dictionaries *)

Lemma dict_get_set_eq k v (d : dict) : dict_get k (dict_set k v d) = Some v.
Proof.
  induction d as [|[k' v'] d IH]; cbn.
  - by rewrite String.eqb_refl.
  - destruct (String.eqb k' k) eqn:E; cbn; by rewrite E.
Qed.

Lemma dict_get_set_ne k k' v (d : dict) :
  k <> k' -> dict_get k' (dict_set k v d) = dict_get k' d.
Proof.
  intros Hne. induction d as [|[k0 v0] d IH]; cbn.
  - by apply String.eqb_neq in Hne as ->.
  - destruct (String.eqb k0 k) eqn:E; cbn.
    + apply String.eqb_eq in E as ->. by apply String.eqb_neq in Hne as ->.
    + by rewrite IH.
Qed.



Lemma dict_get_Some_elem k v (d : dict) : dict_get k d = Some v -> (k, v) ∈ d.
Proof.
  induction d as [|[k' v'] d IH]; cbn; [done|].
  destruct (String.eqb_spec k' k) as [->|Hne].
  - intros [= ->]. left.
  - intros H. right. auto.
Qed.

Lemma dict_get_None_keys k (d : dict) : dict_get k d = None <-> k ∉ keys d.
Proof.
  unfold keys. induction d as [|[k' v'] d IH]; cbn.
  - split; [intros _; apply not_elem_of_nil|done].
  - rewrite not_elem_of_cons. destruct (String.eqb_spec k' k) as [->|Hne].
    + split; [done|]. intros [[] _]. done.
    + rewrite IH. split; [by intros H; split|by intros [_ H]].
Qed.

(** ** The level command *)

Lemma course_file_CONFIG c : course_file c <> CONFIG_FILE.
Proof. unfold course_file, CONFIG_FILE. discriminate. Qed.

Lemma notes_file_CONFIG c : notes_file c <> CONFIG_FILE.
Proof. unfold notes_file, CONFIG_FILE. discriminate. Qed.

Lemma truthy_JStr s : truthy (JStr s) = true <-> s <> "".
Proof.
  cbn. destruct (String.eqb_spec s "") as [->|Hne]; cbn; split; try done.
Qed.


(** A course created by [cmd_course] and selected, with one note. *)
Definition french_config : json :=
  new_course_config toy_world "French" true "Translate {phrase} for {course}.".

Definition bonjour : dict :=
  [("term", JStr "bonjour"); ("translation", JStr "hello");
   ("added", JStr "2024-04-30T09:00:00"); ("level", JStr "Beginner");
   ("synced", JBool true)].

Definition disk_french : disk :=
  <[CONFIG_FILE := Parsed (JObj [("current_course", JStr "French")])]>
    (<[course_file "French" := Parsed french_config]>
       (<[notes_file "French" := Parsed (JObj [("bonjour", JObj bonjour)])]> ∅)).


(** ** A selected course without a configuration file *)






(** ** Cutting a text at a marker *)

(** [a] is the text before the first occurrence of [sep] in [s], and
    [b] the text after that occurrence. *)
Definition first_cut (sep s a b : string) : Prop :=
  s = a +:+ sep +:+ b
  /\ forall a' b', s = a' +:+ sep +:+ b' -> (String.length a <= String.length a')%nat.

(** [sep] does not occur in [s]. *)
Definition absent (sep s : string) : Prop :=
  forall a b, s <> a +:+ sep +:+ b.

(** [x] is [s] up to the first occurrence of [sep], or all of [s] when
    there is none: what [s.split(sep)[0]] is. *)
Definition cut_at (sep s x : string) : Prop :=
  (exists tail, first_cut sep s x tail) \/ (absent sep s /\ x = s).

Lemma str_app_cons c a b : String c a +:+ b = String c (a +:+ b).
Proof. reflexivity. Qed.

Lemma str_app_length a b :
  String.length (a +:+ b) = (String.length a + String.length b)%nat.
Proof. induction a as [|c a IH]; [done|]. rewrite str_app_cons. cbn. by rewrite IH. Qed.

Lemma str_app_assoc a b c : (a +:+ b) +:+ c = a +:+ b +:+ c.
Proof. induction a as [|x a IH]; [done|]. by rewrite !str_app_cons, IH. Qed.

Lemma prefix_app sep b : String.prefix sep (sep +:+ b) = true.
Proof.
  induction sep as [|c sep IH]; [by destruct b|].
  rewrite str_app_cons. cbn [String.prefix]. by destruct (ascii_dec c c).
Qed.

Lemma prefix_drop sep s :
  String.prefix sep s = true -> s = sep +:+ Str.drop (String.length sep) s.
Proof.
  revert s. induction sep as [|c sep IH]; intros s; [done|].
  destruct s as [|c' s]; cbn [String.prefix]; [done|].
  destruct (ascii_dec c c') as [->|]; [|done].
  intros H. rewrite str_app_cons. cbn. f_equal. by apply IH.
Qed.

Lemma split_once_Some sep s a b :
  Str.split_once sep s = Some (a, b) -> first_cut sep s a b.
Proof.
  revert a b. induction s as [|c s IH]; intros a b; cbn [Str.split_once].
  - destruct (String.prefix sep "") eqn:E; [|done].
    intros [= <- <-]. split; [by apply prefix_drop|cbn; lia].
  - destruct (String.prefix sep (String c s)) eqn:E.
    + intros [= <- <-]. split; [by apply prefix_drop|cbn; lia].
    + destruct (Str.split_once sep s) as [[a0 b0]|]; [|done].
      intros [= <- <-]. destruct (IH a0 b0 eq_refl) as [-> Hmin].
      split; [done|]. intros [|c' a'] b' Heq.
      * change ("" +:+ sep +:+ b') with (sep +:+ b') in Heq.
        by rewrite Heq, prefix_app in E.
      * rewrite str_app_cons in Heq. injection Heq as -> Heq.
        cbn. apply le_n_S. by eapply Hmin.
Qed.

Lemma split_once_None sep s : Str.split_once sep s = None -> absent sep s.
Proof.
  induction s as [|c s IH]; cbn [Str.split_once].
  - destruct (String.prefix sep "") eqn:E; [done|]. intros _ [|c' a] b Heq.
    + change ("" +:+ sep +:+ b) with (sep +:+ b) in Heq.
      by rewrite Heq, prefix_app in E.
    + by rewrite str_app_cons in Heq.
  - destruct (String.prefix sep (String c s)) eqn:E; [done|].
    destruct (Str.split_once sep s) as [[a0 b0]|] eqn:E'; [done|].
    intros _ [|c' a] b Heq.
    + change ("" +:+ sep +:+ b) with (sep +:+ b) in Heq.
      by rewrite Heq, prefix_app in E.
    + rewrite str_app_cons in Heq. injection Heq as -> Heq. by eapply IH.
Qed.

Lemma str_app_eq_length a a' b b' :
  a +:+ b = a' +:+ b' -> String.length a = String.length a' -> a = a' /\ b = b'.
Proof.
  revert a'. induction a as [|c a IH]; intros [|c' a']; try done.
  rewrite !str_app_cons. intros [= -> Heq] [= Hlen].
  destruct (IH a' Heq Hlen) as [-> ->]. done.
Qed.

Lemma first_cut_unique sep s a b a' b' :
  first_cut sep s a b -> first_cut sep s a' b' -> a = a' /\ b = b'.
Proof.
  intros [Hs Hmin] [Hs' Hmin'].
  assert (String.length a = String.length a') as Hlen.
  { apply Nat.le_antisymm; [by eapply Hmin|by eapply Hmin']. }
  rewrite Hs in Hs'. destruct (str_app_eq_length _ _ _ _ Hs' Hlen) as [-> Hb].
  split; [done|]. by apply (inj (String.app sep)) in Hb.
Qed.

Lemma first_cut_split_once sep s a b :
  first_cut sep s a b -> Str.split_once sep s = Some (a, b).
Proof.
  intros Hcut. destruct (Str.split_once sep s) as [[a' b']|] eqn:E.
  - apply split_once_Some in E.
    by destruct (first_cut_unique _ _ _ _ _ _ E Hcut) as [-> ->].
  - apply split_once_None in E. destruct Hcut as [Hs _]. by destruct (E a b).
Qed.

Lemma absent_split_once sep s : absent sep s -> Str.split_once sep s = None.
Proof.
  intros Habs. destruct (Str.split_once sep s) as [[a b]|] eqn:E; [|done].
  apply split_once_Some in E as [Hs _]. by destruct (Habs a b).
Qed.

Lemma contains_split_once sep s :
  Str.contains sep s = bool_decide (is_Some (Str.split_once sep s)).
Proof.
  induction s as [|c s IH]; cbn [Str.contains Str.split_once].
  - by destruct (String.prefix sep "").
  - destruct (String.prefix sep (String c s)); [done|]. cbn. rewrite IH.
    by destruct (Str.split_once sep s) as [[??]|].
Qed.

(** The first piece of a split. *)
Definition head_piece (sep s : string) : string :=
  match Str.split_once sep s with
  | Some (a, _) => a
  | None => s
  end.

Lemma head_piece_cut_at sep s x : cut_at sep s x -> head_piece sep s = x.
Proof.
  unfold head_piece. intros [[tail Hcut]|[Habs ->]].
  - by rewrite (first_cut_split_once _ _ _ _ Hcut).
  - by rewrite absent_split_once.
Qed.

Lemma split_fuel_head fuel sep s :
  (1 <= fuel)%nat -> Str.split_fuel fuel sep s !! 0%nat = Some (head_piece sep s).
Proof.
  destruct fuel as [|fuel]; [lia|]. intros _. unfold head_piece. cbn.
  by destruct (Str.split_once sep s) as [[a b]|].
Qed.

Lemma split_once_empty sep :
  sep <> "" -> Str.split_once sep "" = None.
Proof. destruct sep; [done|]. done. Qed.

Lemma split_head sep s :
  sep <> "" -> Str.split sep s !! 0%nat = Some (head_piece sep s).
Proof.
  intros Hsep. unfold Str.split. destruct s as [|c s].
  - unfold head_piece. by rewrite split_once_empty.
  - apply split_fuel_head. cbn. lia.
Qed.

Lemma split_second sep s a b :
  sep <> "" -> Str.split_once sep s = Some (a, b) ->
  Str.split sep s !! 1%nat = Some (head_piece sep b).
Proof.
  intros Hsep E. pose proof (split_once_Some _ _ _ _ E) as [Hs _].
  assert (String.length s = (String.length a + String.length sep + String.length b)%nat)
    as Hlen by (rewrite Hs, !str_app_length; lia).
  assert (1 <= String.length sep)%nat by (destruct sep; [done|cbn; lia]).
  unfold Str.split. destruct (String.length s) as [|n] eqn:En; [lia|].
  cbn [Str.split_fuel]. rewrite E. cbn. destruct b as [|c b].
  - unfold head_piece. rewrite split_once_empty by done.
    destruct n; cbn [Str.split_fuel]; [done|]. by rewrite split_once_empty.
  - apply split_fuel_head. cbn in Hlen. lia.
Qed.

Lemma fenced_Some marker text pre rest :
  marker <> "" -> Str.split_once marker text = Some (pre, rest) ->
  fenced marker text = inr (Str.strip (head_piece "```" (head_piece marker rest))).
Proof.
  intros Hm E. unfold fenced, index.
  rewrite (split_second _ _ _ _ Hm E), split_head by done. done.
Qed.

(** ** The payload of a model reply *)

(** The payload as the specification words it: the content between the
    first [```json] fence and the fence that closes it; failing that,
    the content between the first pair of fences; failing that, the
    text itself. *)
Definition between (opening closing text : string) : option string :=
  match Str.split_once opening text with
  | Some (_, rest) =>
      match Str.split_once closing rest with
      | Some (body, _) => Some body
      | None => None
      end
  | None => None
  end.

Definition spec_payload (text : string) : string :=
  match between "```json" "```" text with
  | Some body => body
  | None =>
      match between "```" "```" text with
      | Some body => body
      | None => text
      end
  end.

Lemma first_cut_absent sep s x tail :
  sep <> "" -> first_cut sep s x tail -> absent sep x.
Proof.
  intros Hsep [Hs Hmin] a b Hx.
  assert (s = a +:+ sep +:+ (b +:+ sep +:+ tail)) as Hs'.
  { by rewrite Hs, Hx, !str_app_assoc. }
  apply Hmin in Hs'. rewrite Hx, !str_app_length in Hs'.
  destruct sep; [done|]. cbn in Hs'. lia.
Qed.

Lemma cut_at_absent sep s x : sep <> "" -> cut_at sep s x -> absent sep x.
Proof.
  intros Hsep [[tail Hcut]|[Habs ->]]; [by eapply first_cut_absent|done].
Qed.

Lemma absent_fence_json s : absent "```" s -> absent "```json" s.
Proof. intros H a b Hs. by apply (H a ("json" +:+ b)). Qed.

Lemma contains_first_cut sep s a b : first_cut sep s a b -> Str.contains sep s = true.
Proof.
  intros H. by rewrite contains_split_once, (first_cut_split_once _ _ _ _ H).
Qed.

Lemma contains_absent sep s : absent sep s -> Str.contains sep s = false.
Proof. intros H. by rewrite contains_split_once, absent_split_once. Qed.

Lemma extract_payload_total text : exists payload, extract_payload text = inr payload.
Proof.
  unfold extract_payload. rewrite !contains_split_once.
  destruct (Str.split_once "```json" text) as [[pre rest]|] eqn:E1; cbn.
  { rewrite (fenced_Some "```json" text pre rest) by done. eauto. }
  destruct (Str.split_once "```" text) as [[pre rest]|] eqn:E2; cbn.
  { rewrite (fenced_Some "```" text pre rest) by done. eauto. }
  eauto.
Qed.

(** What [cmd_new] does once the course, its configuration, the prompt
    and the API key are there. *)
Lemma cmd_new_enrich {A} (w : World A) phrase context grammar d c cfg level prompt key :
  selected_course d = inr (JStr c) -> c <> "" ->
  load_course_config (JStr c) d = inr cfg ->
  build_prompt w cfg phrase context grammar = inr (level, prompt) ->
  api_key w = Some key ->
  cmd_new w phrase context grammar d
  = match enrich w key prompt phrase level context grammar
            (load_notes_lenient (notes_file c) d) with
    | inl e => (Caught e, d)
    | inr (term_key, note_data, notes_data') =>
        (Done (NoteAdded term_key note_data),
         <[notes_file c := Parsed notes_data']> d)
    end.
Proof.
  intros Hsel Hc Hload Hprompt Hkey. unfold cmd_new.
  rewrite Hsel. rewrite (proj2 (truthy_JStr c) Hc). cbn [negb notes_path].
  by rewrite Hload, Hprompt, Hkey.
Qed.

(** C5 (amended): when the reply contains [```json], the text after its
    first occurrence is cut at the next [```json] if there is one, then
    at the first [```] if there is one, and stripped of surrounding
    white space; otherwise, when it contains [```], the text after the
    first occurrence is cut at the next one if there is one, and
    stripped; otherwise the reply is used as it is.  The extraction
    never fails, and when the extracted text does not parse, the command
    ends in its handler with the error and writes nothing. *)
Theorem extract_payload_spec {A} (w : World A) (text : string) :
  (forall pre rest piece body,
      first_cut "```json" text pre rest ->
      cut_at "```json" rest piece -> cut_at "```" piece body ->
      extract_payload text = inr (Str.strip body))
  /\ (forall pre rest body,
         absent "```json" text -> first_cut "```" text pre rest ->
         cut_at "```" rest body ->
         extract_payload text = inr (Str.strip body))
  /\ (absent "```" text -> extract_payload text = inr text)
  /\ (exists payload, extract_payload text = inr payload)
  /\ (forall phrase context grammar d c cfg level prompt key payload,
         selected_course d = inr (JStr c) -> c <> "" ->
         load_course_config (JStr c) d = inr cfg ->
         build_prompt w cfg phrase context grammar = inr (level, prompt) ->
         api_key w = Some key ->
         chat_completion w key prompt = inr text ->
         extract_payload text = inr payload ->
         json_loads w payload = None ->
         cmd_new w phrase context grammar d = (Caught JSONDecodeError, d)).
Proof.
  split; [|split; [|split; [|split]]].
  - intros pre rest piece body Hcut Hpiece Hbody. unfold extract_payload.
    rewrite (contains_first_cut _ _ _ _ Hcut).
    rewrite (fenced_Some _ _ pre rest) by (done || by apply first_cut_split_once).
    by rewrite (head_piece_cut_at _ _ _ Hpiece), (head_piece_cut_at _ _ _ Hbody).
  - intros pre rest body Habs Hcut Hbody. unfold extract_payload.
    rewrite (contains_absent _ _ Habs), (contains_first_cut _ _ _ _ Hcut).
    rewrite (fenced_Some _ _ pre rest) by (done || by apply first_cut_split_once).
    rewrite (head_piece_cut_at _ _ _ Hbody).
    rewrite (head_piece_cut_at "```" body body); [done|].
    right. split; [|done]. by eapply cut_at_absent.
  - intros Habs. unfold extract_payload.
    by rewrite (contains_absent _ _ (absent_fence_json _ Habs)), (contains_absent _ _ Habs).
  - apply extract_payload_total.
  - intros phrase context grammar d c cfg level prompt key payload
      Hsel Hc Hload Hprompt Hkey Hchat Hext Hparse.
    rewrite (cmd_new_enrich w _ _ _ _ c cfg level prompt key) by done.
    unfold enrich. by rewrite Hchat, Hext, Hparse.
Qed.

Lemma extract_payload_spec_witness :
  extract_payload "```json {} ```" = inr "{}"
  /\ extract_payload "Here: ``` [] ``` and ``` {} ```" = inr "[]"
  /\ extract_payload "{}" = inr "{}"
  /\ cmd_new (toy_world_reply (inr "I cannot help with that.")) "bonjour" None None
       disk_french
     = (Caught JSONDecodeError, disk_french).
Proof.
  pose proof (extract_payload_spec toy_world "```json {} ```") as (H1 & _).
  pose proof (extract_payload_spec toy_world "Here: ``` [] ``` and ``` {} ```")
    as (_ & H2 & _).
  pose proof (extract_payload_spec toy_world "{}") as (_ & _ & H3 & _).
  pose proof (extract_payload_spec (toy_world_reply (inr "I cannot help with that."))
                "I cannot help with that.") as (_ & _ & _ & _ & H5).
  split; [|split; [|split]].
  - apply (H1 "" " {} ```" " {} ```" " {} ").
    + by apply split_once_Some.
    + right. split; [by apply split_once_None|done].
    + left. exists "". by apply split_once_Some.
  - apply (H2 "Here: " " [] ``` and ``` {} ```" " [] ").
    + by apply split_once_None.
    + by apply split_once_Some.
    + left. exists " and ``` {} ```". by apply split_once_Some.
  - apply H3. by apply split_once_None.
  - apply (H5 "bonjour" None None disk_french "French" french_config JNull
             "Translate {phrase} for {course}.bonjour" "sk-test"
             "I cannot help with that."); reflexivity || discriminate.
Defined.

(** C5, as stated, fails: the content between the fences of
    ["```json {} ```"] is [" {} "], and the code hands ["{}"] to the
    parser; ["```json {}"] has no closing fence, hence no fenced block,
    and the code does not use the raw text. *)
Lemma extract_payload_not_spec_payload :
  spec_payload "```json {} ```" = " {} "
  /\ extract_payload "```json {} ```" = inr "{}"
  /\ extract_payload "```json {} ```" <> inr (spec_payload "```json {} ```")
  /\ spec_payload "```json {}" = "```json {}"
  /\ extract_payload "```json {}" = inr "{}"
  /\ extract_payload "```json {}" <> inr (spec_payload "```json {}").
Proof. repeat split; (reflexivity || discriminate). Qed.

(** ** Note creation *)

Lemma cmd_new_Done_inv {A} (w : World A) phrase context grammar d term_key note_data d' :
  cmd_new w phrase context grammar d = (Done (NoteAdded term_key note_data), d') ->
  exists c cfg level prompt key notes_data',
    selected_course d = inr (JStr c) /\ c <> ""
    /\ load_course_config (JStr c) d = inr cfg
    /\ build_prompt w cfg phrase context grammar = inr (level, prompt)
    /\ api_key w = Some key
    /\ enrich w key prompt phrase level context grammar
         (load_notes_lenient (notes_file c) d)
       = inr (term_key, note_data, notes_data')
    /\ d' = <[notes_file c := Parsed notes_data']> d.
Proof.
  unfold cmd_new. destruct (selected_course d) as [e|cur]; [done|].
  destruct (truthy cur) eqn:Ht; cbn [negb]; [|done].
  destruct (load_course_config cur d) as [e|cfg] eqn:Hload; [done|].
  destruct cur as [| | |c| |]; try done. cbn [notes_path].
  destruct (build_prompt w cfg phrase context grammar) as [e|[level prompt]] eqn:Hp;
    [done|].
  destruct (api_key w) as [key|] eqn:Hkey; [|done].
  destruct (enrich _ _ _ _ _ _ _ _) as [e|[[t n] nd']] eqn:He; [done|].
  intros [= -> -> <-]. exists c, cfg, level, prompt, key, nd'.
  repeat split; try done. by apply truthy_JStr.
Qed.

Definition opt_set (k : string) (o : option string) (d : dict) : dict :=
  match o with
  | Some s => dict_set k (JStr s) d
  | None => d
  end.

Lemma add_metadata_inv {A} (w : World A) level context grammar parsed note_data :
  add_metadata w level context grammar parsed = inr note_data ->
  exists fields,
    parsed = JObj fields
    /\ note_data
       = JObj (opt_set "grammar" (given grammar)
                 (opt_set "context" (given context)
                    (dict_set "synced" (JBool false)
                       (dict_set "level" level
                          (dict_set "added" (JStr (now w)) fields))))).
Proof.
  unfold add_metadata, set_given. destruct parsed as [| | | | |fields]; try done.
  cbn. intros H. exists fields. split; [done|].
  destruct (given context), (given grammar); cbn in H; by injection H as <-.
Qed.

Lemma build_prompt_level {A} (w : World A) cfg phrase context grammar level prompt :
  build_prompt w cfg phrase context grammar = inr (level, prompt) ->
  py_get cfg "current_level" (JStr "general") = inr level.
Proof.
  unfold build_prompt. destruct (py_get _ _ _) as [e|l]; [done|].
  repeat case_match; try done. by intros [= -> _].
Qed.



(** ** The sync batch *)

(** Top-level dictionaries of the files have no repeated key, as every
    Python [dict] has. *)
Definition dicts_ok (d : disk) : Prop :=
  forall p items, d !! p = Some (Parsed (JObj items)) -> NoDup (keys items).

(** [note['synced'] = True] on one value of the collection. *)
Definition mark (v : json) : json :=
  match v with
  | JObj note => JObj (dict_set "synced" (JBool true) note)
  | _ => v
  end.

(** The collection with the notes under [terms] marked. *)
Definition mark_all (terms : list string) (items : dict) : dict :=
  (fun kv : string * json =>
     (kv.1, if bool_decide (kv.1 ∈ terms) then mark kv.2 else kv.2)) <$> items.

Definition line_term (l : sync_line) : string :=
  match l with
  | Synced t => t
  | Failed t _ => t
  end.

Definition synced_terms (ls : list sync_line) : list string :=
  omap (fun l => match l with Synced t => Some t | Failed _ _ => None end) ls.

(** The batch in the words of the specification: the notes are taken in
    order; a note whose push raises is reported as failed and the batch
    goes on with the next one from the state the failed push left. *)
Inductive batch {A} (w : World A) (cfg deck : json) (course : string)
  : A -> list (string * dict) -> list sync_line -> A -> Prop :=
| batch_done a : batch w cfg deck course a [] [] a
| batch_synced a a1 cs term note rest ls a' :
    push_note w cfg deck course term note a = (a1, cs, None) ->
    batch w cfg deck course a1 rest ls a' ->
    batch w cfg deck course a ((term, note) :: rest) (Synced term :: ls) a'
| batch_failed a a1 cs e term note rest ls a' :
    push_note w cfg deck course term note a = (a1, cs, Some e) ->
    batch w cfg deck course a1 rest ls a' ->
    batch w cfg deck course a ((term, note) :: rest) (Failed term e :: ls) a'.

Definition is_synced (note : dict) : bool :=
  truthy (note_get note "synced" (JBool false)).

Lemma dict_get_elem k v (d : dict) :
  NoDup (keys d) -> (k, v) ∈ d -> dict_get k d = Some v.
Proof.
  unfold keys. induction d as [|[k' v'] d IH]; cbn; [by intros _ ?%elem_of_nil|].
  intros [Hk' Hnd]%NoDup_cons [[= -> ->]|Hin]%elem_of_cons.
  - by rewrite String.eqb_refl.
  - destruct (String.eqb_spec k' k) as [->|Hne]; [|by apply IH].
    destruct Hk'. apply list_elem_of_fmap. by exists (k, v).
Qed.

Lemma unsynced_of_elem items u :
  unsynced_of items = inr u ->
  forall t n, (t, n) ∈ u -> (t, JObj n) ∈ items /\ is_synced n = false.
Proof.
  revert u. induction items as [|[k v] items IH]; intros u; cbn.
  - intros [= <-] t n ?%elem_of_nil. done.
  - destruct v as [| | | | |note]; try done.
    destruct (unsynced_of items) as [e|u0]; [done|].
    fold (is_synced note). destruct (is_synced note) eqn:Hs; intros [= <-] t n Hin.
    + destruct (IH u0 eq_refl t n Hin). split; [by right|done].
    + apply elem_of_cons in Hin as [[= -> ->]|Hin]; [split; [left|done]|].
      destruct (IH u0 eq_refl t n Hin). split; [by right|done].
Qed.

Lemma unsynced_of_cover items u :
  unsynced_of items = inr u ->
  forall k v, (k, v) ∈ items ->
    exists n, v = JObj n /\ (is_synced n = true \/ (k, n) ∈ u).
Proof.
  revert u. induction items as [|[k0 v0] items IH]; intros u; cbn.
  - intros _ k v ?%elem_of_nil. done.
  - destruct v0 as [| | | | |note]; try done.
    destruct (unsynced_of items) as [e|u0]; [done|].
    fold (is_synced note). intros [= <-] k v [[= -> ->]|Hin]%elem_of_cons.
    + exists note. split; [done|].
      destruct (is_synced note); [by left|right; left].
    + destruct (IH u0 eq_refl k v Hin) as (n & -> & Hn). exists n. split; [done|].
      destruct Hn as [Hn|Hn]; [by left|right].
      destruct (is_synced note); [done|by right].
Qed.

Lemma unsynced_of_keys items u :
  unsynced_of items = inr u -> NoDup (keys items) -> NoDup u.*1.
Proof.
  unfold keys. revert u. induction items as [|[k v] items IH]; intros u; cbn.
  - intros [= <-] _. constructor.
  - destruct v as [| | | | |note]; try done.
    destruct (unsynced_of items) as [e|u0] eqn:Hu; [done|].
    intros [= <-] [Hk Hnd]%NoDup_cons. specialize (IH u0 eq_refl Hnd).
    destruct (truthy _); [done|]. cbn. constructor; [|done].
    intros ((t & n) & -> & Hin)%list_elem_of_fmap. destruct Hk.
    apply list_elem_of_fmap. exists (t, JObj n). split; [done|].
    by eapply unsynced_of_elem.
Qed.

Lemma mark_idem v : mark (mark v) = mark v.
Proof.
  destruct v as [| | | | |note]; try done. cbn. f_equal.
  induction note as [|[k x] note IH]; cbn; [done|].
  destruct (String.eqb k "synced") eqn:E; cbn; rewrite E; [done|by rewrite IH].
Qed.

Lemma keys_mark_all terms items : keys (mark_all terms items) = keys items.
Proof. unfold keys, mark_all. rewrite <- list_fmap_compose. done. Qed.

Lemma dict_get_mark_all terms k items :
  dict_get k (mark_all terms items)
  = (fun v => if bool_decide (k ∈ terms) then mark v else v) <$> dict_get k items.
Proof.
  unfold mark_all. induction items as [|[k' v'] items IH]; cbn; [done|].
  destruct (String.eqb_spec k' k) as [->|Hne]; [done|apply IH].
Qed.

Lemma mark_all_cons t terms items :
  mark_all terms (mark_all [t] items) = mark_all (t :: terms) items.
Proof.
  unfold mark_all. rewrite <- list_fmap_compose. apply list_fmap_ext.
  intros _ [k v] _. cbn. f_equal.
  destruct (decide (k = t)) as [->|Hne].
  - rewrite (bool_decide_eq_true_2 (t ∈ [t])) by left.
    rewrite (bool_decide_eq_true_2 (t ∈ t :: terms)) by left.
    case_bool_decide; [apply mark_idem|done].
  - rewrite (bool_decide_eq_false_2 (k ∈ [t])).
    + rewrite (bool_decide_ext (k ∈ terms) (k ∈ t :: terms)); [done|].
      rewrite elem_of_cons. split; [by right|by intros [?|?]].
    + by intros ->%list_elem_of_singleton.
Qed.

Lemma mark_all_nil items : mark_all [] items = items.
Proof.
  unfold mark_all. induction items as [|[k v] items IH]; [done|].
  cbn. by rewrite IH.
Qed.

Lemma dict_set_fmap t v' (items : dict) :
  NoDup (keys items) ->
  dict_set t v' items
  = match dict_get t items with
    | Some _ =>
        (fun kv : string * json => (kv.1, if String.eqb kv.1 t then v' else kv.2))
          <$> items
    | None => items ++ [(t, v')]
    end.
Proof.
  unfold keys. induction items as [|[k v] items IH]; [done|].
  cbn. intros [Hk Hnd]%NoDup_cons. destruct (String.eqb_spec k t) as [->|Hne].
  - f_equal. clear IH. induction items as [|[k0 v0] items IH]; [done|].
    cbn in *. apply not_elem_of_cons in Hk as [Hne Hk].
    apply NoDup_cons in Hnd as [_ Hnd].
    destruct (String.eqb_spec k0 t) as [->|_]; [done|]. by rewrite <- IH.
  - rewrite (IH Hnd). by destruct (dict_get t items).
Qed.

Lemma mark_synced_mark_all t n (items : dict) :
  NoDup (keys items) -> dict_get t items = Some (JObj n) ->
  mark_synced t items = inr (mark_all [t] items).
Proof.
  intros Hnd Hget. unfold mark_synced. cbn. rewrite Hget. cbn.
  rewrite dict_set_fmap, Hget by done. unfold mret, exn_ret. f_equal.
  unfold mark_all. apply list_fmap_ext. intros i [k v] Hin. cbn. f_equal.
  destruct (String.eqb_spec k t) as [->|Hne].
  - rewrite bool_decide_eq_true_2 by left.
    apply list_elem_of_lookup_2 in Hin.
    rewrite (dict_get_elem _ _ _ Hnd Hin) in Hget. by injection Hget as ->.
  - by rewrite bool_decide_eq_false_2 by by intros ->%list_elem_of_singleton.
Qed.

Lemma sync_loop_cons {A} (w : World A) cfg deck course x u st :
  sync_loop w cfg deck course (x :: u) st
  = sync_loop w cfg deck course u (sync_step w cfg deck course st x).
Proof. reflexivity. Qed.

Lemma sync_loop_spec {A} (w : World A) cfg deck course u :
  forall st,
    NoDup (keys (notes_data st)) ->
    (forall t n, (t, n) ∈ u -> exists n', dict_get t (notes_data st) = Some (JObj n')) ->
    exists ls,
      lines (sync_loop w cfg deck course u st) = lines st ++ ls
      /\ batch w cfg deck course (anki_state st) u ls
           (anki_state (sync_loop w cfg deck course u st))
      /\ notes_data (sync_loop w cfg deck course u st)
         = mark_all (synced_terms ls) (notes_data st)
      /\ synced_count (sync_loop w cfg deck course u st)
         = (synced_count st + length (synced_terms ls))%nat.
Proof.
  induction u as [|[t n] u IH]; intros st Hnd Hpre.
  - exists []. cbn. rewrite app_nil_r, mark_all_nil.
    repeat split; [constructor|lia].
  - rewrite sync_loop_cons. unfold sync_step.
    destruct (push_note w cfg deck course t n (anki_state st)) as [[a1 cs] r] eqn:Hpush.
    assert (forall t' n', (t', n') ∈ u ->
              exists n'', dict_get t' (notes_data st) = Some (JObj n'')) as Hpre'.
    { intros t' n' Hin. apply (Hpre t' n'). by right. }
    destruct r as [e|].
    + match goal with
      | |- context [sync_loop _ _ _ _ u ?s] =>
          destruct (IH s) as (ls & Hl & Hb & Hn & Hc); [exact Hnd|exact Hpre'|]
      end.
      cbn [lines anki_state notes_data synced_count] in Hl, Hb, Hn, Hc.
      exists (Failed t e :: ls). rewrite Hl, Hn, Hc.
      change (synced_terms (Failed t e :: ls)) with (synced_terms ls).
      split; [by rewrite <- (assoc_L (++))|]. split; [|done]. by econstructor.
    + destruct (Hpre t n) as [n0 Hget]; [left|].
      rewrite (mark_synced_mark_all _ _ _ Hnd Hget).
      match goal with
      | |- context [sync_loop _ _ _ _ u ?s] =>
          destruct (IH s) as (ls & Hl & Hb & Hn & Hc)
      end.
      { cbn. by rewrite keys_mark_all. }
      { cbn. intros t' n' Hin. destruct (Hpre' t' n' Hin) as [n'' Hg].
        rewrite dict_get_mark_all, Hg. cbn. case_bool_decide; eauto. }
      cbn [lines anki_state notes_data synced_count] in Hl, Hb, Hn, Hc.
      exists (Synced t :: ls). rewrite Hl, Hn, Hc.
      change (synced_terms (Synced t :: ls)) with (t :: synced_terms ls).
      split; [by rewrite <- (assoc_L (++))|]. split; [by econstructor|].
      split; [apply mark_all_cons|cbn [length]; lia].
Qed.

Lemma batch_terms {A} (w : World A) cfg deck course a u ls a' :
  batch w cfg deck course a u ls a' -> line_term <$> ls = u.*1.
Proof. induction 1; cbn; by f_equal. Qed.

Lemma elem_of_synced_terms t ls : t ∈ synced_terms ls <-> Synced t ∈ ls.
Proof.
  unfold synced_terms. rewrite list_elem_of_omap. split.
  - intros ([t'|t' e] & Hin & [= ->]). done.
  - intros Hin. by exists (Synced t).
Qed.

Lemma NoDup_fmap_inj {X Y} (f : X -> Y) (l : list X) x y :
  NoDup (f <$> l) -> x ∈ l -> y ∈ l -> f x = f y -> x = y.
Proof.
  induction l as [|z l IH]; cbn; [by intros _ ?%elem_of_nil|].
  intros [Hz Hnd]%NoDup_cons [->|Hx]%elem_of_cons [->|Hy]%elem_of_cons Heq; auto.
  - destruct Hz. rewrite Heq. by apply list_elem_of_fmap_2.
  - destruct Hz. rewrite <- Heq. by apply list_elem_of_fmap_2.
Qed.

(** What [cmd_sync] does once there is something to push and the top
    deck is there. *)
Lemma cmd_sync_ready {A} (w : World A) d a c items u cfg deck a0 :
  selected_course d = inr (JStr c) -> c <> "" ->
  d !! notes_file c = Some (Parsed (JObj items)) ->
  unsynced_of items = inr u -> u <> [] ->
  anki_importable w = true ->
  load_course_config (JStr c) d = inr cfg -> top_deck cfg = inr deck ->
  create_deck w deck a = (a0, None) ->
  cmd_sync w d a
  = let st := sync_loop w cfg deck c u
                {| anki_state := a0; calls := [CreateDeck deck]; lines := [];
                   notes_data := items; synced_count := 0 |} in
    (Done (SyncComplete (lines st) (synced_count st) (length u)),
     <[notes_file c := Parsed (JObj (notes_data st))]> d, anki_state st, calls st).
Proof.
  intros Hsel Hc Hfile Hu Hne Himp Hload Htop Hdeck. unfold cmd_sync.
  rewrite Hsel, (proj2 (truthy_JStr c) Hc), Hfile, Hu. cbn [negb].
  destruct u as [|x u]; [done|]. by rewrite Himp, Hload, Htop, Hdeck.
Qed.

(** A completed batch: the report, the marked collection and the
    relation between the two. *)
Lemma cmd_sync_run {A} (w : World A) d a a0 c items u cfg deck :
  selected_course d = inr (JStr c) -> c <> "" ->
  d !! notes_file c = Some (Parsed (JObj items)) -> NoDup (keys items) ->
  unsynced_of items = inr u -> u <> [] ->
  anki_importable w = true ->
  load_course_config (JStr c) d = inr cfg -> top_deck cfg = inr deck ->
  create_deck w deck a = (a0, None) ->
  exists ls a' cs,
    cmd_sync w d a
    = (Done (SyncComplete ls (length (synced_terms ls)) (length u)),
       <[notes_file c := Parsed (JObj (mark_all (synced_terms ls) items))]> d,
       a', cs)
    /\ batch w cfg deck c a0 u ls a'
    /\ line_term <$> ls = u.*1.
Proof.
  intros Hsel Hc Hfile Hnd Hu Hne Himp Hload Htop Hdeck.
  rewrite (cmd_sync_ready w d a c items u cfg deck a0) by done. cbn zeta.
  match goal with
  | |- context [sync_loop _ _ _ _ u ?s] =>
      destruct (sync_loop_spec w cfg deck c u s) as (ls & Hl & Hb & Hn & Hcount)
  end.
  { exact Hnd. }
  { cbn. intros t n Hin. exists n. apply dict_get_elem; [done|].
    by eapply unsynced_of_elem. }
  cbn [lines anki_state notes_data synced_count] in Hl, Hb, Hn, Hcount.
  rewrite Hl, Hn, Hcount. cbn [app Nat.add].
  do 3 eexists. split; [reflexivity|]. split; [done|].
  by eapply batch_terms.
Qed.

(** C2: in a sync batch every unsynced note is attempted, in order; a
    note whose push raises is reported as failed, the batch goes on
    with the next note, and the entry of the failed note is left as it
    was; a note whose push succeeds is reported as synced and its
    [synced] becomes true.  The notes file is then rewritten with
    exactly the succeeded notes marked, every other entry and the order
    of the keys unchanged, and the summary counts the succeeded notes
    out of the unsynced ones. *)
Theorem cmd_sync_batch {A} (w : World A) (d : disk) (a a0 : A) (c : string)
    (items : dict) (u : list (string * dict)) (cfg deck : json) :
  selected_course d = inr (JStr c) -> c <> "" ->
  d !! notes_file c = Some (Parsed (JObj items)) -> NoDup (keys items) ->
  unsynced_of items = inr u -> u <> [] ->
  anki_importable w = true ->
  load_course_config (JStr c) d = inr cfg -> top_deck cfg = inr deck ->
  create_deck w deck a = (a0, None) ->
  exists ls a' cs items',
    cmd_sync w d a
    = (Done (SyncComplete ls (length (synced_terms ls)) (length u)),
       <[notes_file c := Parsed (JObj items')]> d, a', cs)
    /\ batch w cfg deck c a0 u ls a'
    /\ line_term <$> ls = u.*1
    /\ items' = mark_all (synced_terms ls) items
    /\ keys items' = keys items
    /\ (forall t e, Failed t e ∈ ls -> dict_get t items' = dict_get t items)
    /\ (forall t, Synced t ∈ ls ->
          exists n, dict_get t items = Some (JObj n) /\ is_synced n = false
                    /\ dict_get t items'
                       = Some (JObj (dict_set "synced" (JBool true) n)))
    /\ (forall k, k ∉ u.*1 -> dict_get k items' = dict_get k items).
Proof.
  intros Hsel Hc Hfile Hnd Hu Hne Himp Hload Htop Hdeck.
  destruct (cmd_sync_run w d a a0 c items u cfg deck)
    as (ls & a' & cs & Hrun & Hb & Hterms); try done.
  pose proof (unsynced_of_keys _ _ Hu Hnd) as Hndu.
  exists ls, a', cs, (mark_all (synced_terms ls) items).
  split; [done|]. split; [done|]. split; [done|].
  split; [done|]. split; [apply keys_mark_all|]. split; [|split].
  - intros t e Hin. rewrite dict_get_mark_all.
    rewrite bool_decide_eq_false_2; [by destruct (dict_get t items)|].
    intros Hs%elem_of_synced_terms. rewrite <- Hterms in Hndu.
    by pose proof (NoDup_fmap_inj line_term ls _ _ Hndu Hin Hs eq_refl).
  - intros t Hin.
    assert (t ∈ u.*1) as ((t' & n) & -> & Hin')%list_elem_of_fmap.
    { rewrite <- Hterms. by apply (list_elem_of_fmap_2 line_term) in Hin. }
    destruct (unsynced_of_elem _ _ Hu _ _ Hin') as [Hitem Hs].
    exists n. cbn. rewrite dict_get_mark_all, (dict_get_elem _ _ _ Hnd Hitem).
    split; [done|]. split; [done|]. cbn.
    by rewrite bool_decide_eq_true_2 by by apply elem_of_synced_terms.
  - intros k Hk. rewrite dict_get_mark_all.
    rewrite bool_decide_eq_false_2; [by destruct (dict_get k items)|].
    intros Hs%elem_of_synced_terms. destruct Hk. rewrite <- Hterms.
    by apply (list_elem_of_fmap_2 line_term) in Hs.
Qed.

(** A course with one synced note and three notes to push; the
    flashcard application of [toy_world] refuses the second of them. *)
Definition note_at (term level : string) (synced : bool) : json :=
  JObj [("term", JStr term); ("added", JStr "2024-04-30T09:00:00");
        ("level", JStr level); ("synced", JBool synced)].

Definition french_notes : dict :=
  [("bonjour", note_at "bonjour" "Beginner" true);
   ("merci", note_at "merci" "Beginner" false);
   ("nonobstant", note_at "nonobstant" "Advanced" false);
   ("voila", note_at "voila" "Beginner" false)].

Definition disk_sync : disk :=
  <[notes_file "French" := Parsed (JObj french_notes)]> disk_french.

Lemma french_notes_ok : NoDup (keys french_notes).
Proof. refine (bool_decide_unpack _ _). vm_compute. exact I. Qed.

Lemma cmd_sync_batch_witness :
  exists a' cs items',
    cmd_sync toy_world disk_sync []
    = (Done (SyncComplete [Synced "merci"; Failed "nonobstant" AnkiError; Synced "voila"]
               2 3),
       <[notes_file "French" := Parsed (JObj items')]> disk_sync, a', cs)
    /\ dict_get "nonobstant" items' = dict_get "nonobstant" french_notes
    /\ dict_get "voila" items' = Some (note_at "voila" "Beginner" true).
Proof.
  destruct (cmd_sync_batch toy_world disk_sync [] [CreateDeck (JStr "French")]
              "French" french_notes
              [("merci", [("term", JStr "merci"); ("added", JStr "2024-04-30T09:00:00");
                          ("level", JStr "Beginner"); ("synced", JBool false)]);
               ("nonobstant", [("term", JStr "nonobstant");
                               ("added", JStr "2024-04-30T09:00:00");
                               ("level", JStr "Advanced"); ("synced", JBool false)]);
               ("voila", [("term", JStr "voila"); ("added", JStr "2024-04-30T09:00:00");
                          ("level", JStr "Beginner"); ("synced", JBool false)])]
              french_config (JStr "French")
              eq_refl ltac:(discriminate) eq_refl
              french_notes_ok
              eq_refl ltac:(discriminate) eq_refl eq_refl eq_refl eq_refl)
    as (ls & a' & cs & items' & Hrun & _ & _ & Hitems & _).
  exists a', cs, items'.
  assert (ls = [Synced "merci"; Failed "nonobstant" AnkiError; Synced "voila"]) as ->.
  { vm_compute in Hrun. by injection Hrun. }
  split; [exact Hrun|]. rewrite Hitems. split; reflexivity.
Defined.

(** ** A second sync *)

(** The first run left nothing to push: it completed with every note
    reported as synced, or it found nothing to do. *)
Definition all_pushed (o : outcome) : Prop :=
  match o with
  | Done (SyncComplete _ n total) => n = total
  | Notice _ => True
  | _ => False
  end.

Lemma cmd_sync_Done_inv {A} (w : World A) d a r d' a' cs :
  cmd_sync w d a = (Done r, d', a', cs) ->
  exists c items u cfg deck a0,
    selected_course d = inr (JStr c) /\ c <> ""
    /\ d !! notes_file c = Some (Parsed (JObj items))
    /\ unsynced_of items = inr u /\ u <> []
    /\ anki_importable w = true
    /\ load_course_config (JStr c) d = inr cfg /\ top_deck cfg = inr deck
    /\ create_deck w deck a = (a0, None).
Proof.
  unfold cmd_sync. destruct (selected_course d) as [e|cur]; [done|].
  destruct (truthy cur) eqn:Ht; cbn [negb]; [|done].
  destruct cur as [| | |c| |]; try done.
  destruct (d !! notes_file c) as [[[| | | | |items]|]|] eqn:Hfile; try done.
  destruct (unsynced_of items) as [e|u] eqn:Hu; [done|].
  destruct u as [|x u]; [done|].
  destruct (anki_importable w) eqn:Himp; cbn [negb]; [|done].
  destruct (load_course_config (JStr c) d) as [e|cfg] eqn:Hload; [done|].
  destruct (top_deck cfg) as [e|deck] eqn:Htop; [done|].
  destruct (create_deck w deck a) as [a0 [e|]] eqn:Hdeck; [done|].
  intros _. exists c, items, (x :: u), cfg, deck, a0.
  repeat split; try done. by apply truthy_JStr.
Qed.

Lemma cmd_sync_Notice_inv {A} (w : World A) d a n d' a' cs :
  cmd_sync w d a = (Notice n, d', a', cs) ->
  d' = d /\ forall B (w2 : World B) a2, cmd_sync w2 d a2 = (Notice n, d, a2, []).
Proof.
  unfold cmd_sync. destruct (selected_course d) as [e|cur]; [done|].
  destruct (truthy cur) eqn:Ht; cbn [negb]; [|done].
  destruct cur as [| | |c| |]; try done.
  destruct (d !! notes_file c) as [[[| | | | |items]|]|] eqn:Hfile; try done.
  - destruct (unsynced_of items) as [e|u] eqn:Hu; [done|].
    destruct u as [|x u]; [by intros [= <- <- <- <-]|].
    repeat case_match; discriminate.
  - by intros [= <- <- <- <-].
Qed.

Lemma synced_terms_length ls : (length (synced_terms ls) <= length ls)%nat.
Proof. unfold synced_terms. induction ls as [|[t|t e] ls IH]; cbn; lia. Qed.

Lemma synced_terms_full ls :
  length (synced_terms ls) = length ls -> synced_terms ls = line_term <$> ls.
Proof.
  induction ls as [|[t|t e] ls IH]; [done|..].
  - change (synced_terms (Synced t :: ls)) with (t :: synced_terms ls).
    cbn. intros [= H]. f_equal. by apply IH.
  - change (synced_terms (Failed t e :: ls)) with (synced_terms ls).
    cbn. intros H. pose proof (synced_terms_length ls). lia.
Qed.

Lemma is_synced_mark n : is_synced (dict_set "synced" (JBool true) n) = true.
Proof. unfold is_synced, note_get. by rewrite dict_get_set_eq. Qed.

Lemma unsynced_of_none items :
  (forall k v, (k, v) ∈ items -> exists n, v = JObj n /\ is_synced n = true) ->
  unsynced_of items = inr [].
Proof.
  induction items as [|[k v] items IH]; intros H; cbn; [done|].
  destruct (H k v) as (n & -> & Hn); [left|].
  rewrite IH by (intros k' v' Hin; apply (H k' v'); by right).
  fold (is_synced n). by rewrite Hn.
Qed.

Lemma unsynced_of_mark_all items u :
  unsynced_of items = inr u -> unsynced_of (mark_all u.*1 items) = inr [].
Proof.
  intros Hu. apply unsynced_of_none. intros k v Hin.
  unfold mark_all in Hin. apply list_elem_of_fmap in Hin as ([k0 v0] & [= -> ->] & Hin).
  destruct (unsynced_of_cover _ _ Hu _ _ Hin) as (n & -> & Hn). cbn.
  case_bool_decide as Hk.
  - eexists. split; [reflexivity|apply is_synced_mark].
  - exists n. split; [done|]. destruct Hn as [Hn|Hn]; [done|].
    destruct Hk. by apply (list_elem_of_fmap_2 fst) in Hn.
Qed.

Lemma selected_course_insert_notes c x d :
  selected_course (<[notes_file c := x]> d) = selected_course d.
Proof.
  unfold selected_course, load_global_config.
  by rewrite lookup_insert_ne by apply notes_file_CONFIG.
Qed.

(** C4 (amended): when a sync completes and reports every unsynced note
    as synced, or finds nothing to sync, a second sync run right after
    it makes no call to the flashcard application, whatever that
    application would answer, and leaves the files as they are: the set
    of unsynced notes is empty. *)
Theorem second_sync_no_calls {A} (w : World A) (d d' : disk) (a a' : A)
    (o : outcome) (cs : list call) :
  dicts_ok d ->
  cmd_sync w d a = (o, d', a', cs) ->
  all_pushed o ->
  forall (w2 : World A) (a2 : A),
    exists n, cmd_sync w2 d' a2 = (Notice n, d', a2, []).
Proof.
  intros Hok Hrun Hall w2 a2. destruct o as [r| |n| |]; try done.
  - destruct r as [| | |ls count total|]; try done. cbn in Hall. subst total.
    pose proof (cmd_sync_Done_inv _ _ _ _ _ _ _ Hrun)
      as (c & items & u & cfg & deck & a0 & Hsel & Hc & Hfile & Hu & Hne
          & Himp & Hload & Htop & Hdeck).
    pose proof (Hok _ _ Hfile) as Hnd.
    destruct (cmd_sync_run w d a a0 c items u cfg deck)
      as (ls' & a1 & cs1 & Hrun' & Hb & Hterms); try done.
    rewrite Hrun in Hrun'. injection Hrun' as -> Hlen Hcount -> -> ->.
    assert (length ls' = length u) as Hlen'.
    { by rewrite <- (length_fmap line_term), Hterms, length_fmap. }
    rewrite synced_terms_full, Hterms by lia.
    exists AllSynced. unfold cmd_sync.
    rewrite selected_course_insert_notes, Hsel, (proj2 (truthy_JStr c) Hc).
    cbn [negb]. by rewrite lookup_insert_eq, (unsynced_of_mark_all _ _ Hu).
  - apply cmd_sync_Notice_inv in Hrun as [-> Hrun]. exists n. apply Hrun.
Qed.

Lemma dicts_ok_empty : dicts_ok ∅.
Proof. intros p items H. by rewrite lookup_empty in H. Qed.

Lemma dicts_ok_insert p j d :
  (forall items, j = JObj items -> NoDup (keys items)) ->
  dicts_ok d -> dicts_ok (<[p := Parsed j]> d).
Proof.
  intros Hj Hd q items. destruct (decide (p = q)) as [->|Hne].
  - rewrite lookup_insert_eq. intros [= ->]. by apply Hj.
  - rewrite lookup_insert_ne by done. apply Hd.
Qed.

Lemma NoDup_keys_compute (items : dict) :
  bool_decide (NoDup (keys items)) = true -> NoDup (keys items).
Proof. apply bool_decide_eq_true_1. Qed.

(** A course whose only unsynced note the application accepts. *)
Definition disk_merci : disk :=
  <[notes_file "French" :=
      Parsed (JObj [("bonjour", note_at "bonjour" "Beginner" true);
                    ("merci", note_at "merci" "Beginner" false)])]> disk_french.

Lemma disk_merci_ok : dicts_ok disk_merci.
Proof.
  unfold disk_merci, disk_french.
  repeat (apply dicts_ok_insert;
          [intros items [= <-]; by apply NoDup_keys_compute|]).
  apply dicts_ok_empty.
Qed.

Lemma second_sync_no_calls_witness :
  exists d' a',
    cmd_sync toy_world disk_merci []
    = (Done (SyncComplete [Synced "merci"] 1 1), d', a',
       [CreateDeck (JStr "French"); CreateDeck (JStr "French::Beginner");
        AddNote (JStr "French::Beginner") (JStr "French (Notes)")
          [(JStr "Term", JStr "merci"); (JStr "Example", JStr "");
           (JStr "Notes", JStr ""); (JStr "Translation", JStr "");
           (JStr "Example Explanation", JStr "")] ["french"]])
    /\ exists n, cmd_sync toy_world d' a' = (Notice n, d', a', []).
Proof.
  do 2 eexists. split; [vm_compute; reflexivity|].
  eapply (second_sync_no_calls toy_world disk_merci _ [] _ _ _ disk_merci_ok).
  - vm_compute. reflexivity.
  - reflexivity.
Defined.

(** C4, as stated, fails: the application refuses one of the three
    notes of the first run, that note stays unsynced, and the second
    run calls the application again for it. *)
Lemma second_sync_retries_failed :
  exists d1 a1 cs1 a2 cs2,
    cmd_sync toy_world disk_sync []
    = (Done (SyncComplete [Synced "merci"; Failed "nonobstant" AnkiError;
                           Synced "voila"] 2 3), d1, a1, cs1)
    /\ cmd_sync toy_world d1 a1
       = (Done (SyncComplete [Failed "nonobstant" AnkiError] 0 1), d1, a2, cs2)
    /\ cs2 = [CreateDeck (JStr "French"); CreateDeck (JStr "French::Advanced");
              AddNote (JStr "French::Advanced") (JStr "French (Notes)")
                [(JStr "Term", JStr "nonobstant"); (JStr "Example", JStr "");
                 (JStr "Notes", JStr ""); (JStr "Translation", JStr "");
                 (JStr "Example Explanation", JStr "")] ["french"]].
Proof.
  do 5 eexists. split; [vm_compute; reflexivity|].
  split; vm_compute; reflexivity.
Qed.

(** ** Malformed files *)

Lemma load_global_config_default d :
  d !! CONFIG_FILE = None \/ d !! CONFIG_FILE = Some Malformed ->
  load_global_config d = default_global_config.
Proof. unfold load_global_config. by intros [-> | ->]. Qed.

Lemma load_course_config_missing c d :
  d !! course_file c = None -> load_course_config (JStr c) d = inr JNull.
Proof. unfold load_course_config. cbn. by intros ->. Qed.

Lemma load_course_config_malformed c d :
  d !! course_file c = Some Malformed ->
  load_course_config (JStr c) d = inl JSONDecodeError.
Proof. unfold load_course_config. cbn. by intros ->. Qed.

Lemma load_notes_lenient_malformed p d :
  d !! p = Some Malformed -> load_notes_lenient p d = JObj [].
Proof. unfold load_notes_lenient. by intros ->. Qed.

Lemma cmd_sync_malformed {A} (w : World A) d a c :
  selected_course d = inr (JStr c) -> c <> "" ->
  d !! notes_file c = Some Malformed ->
  cmd_sync w d a = (Uncaught JSONDecodeError, d, a, []).
Proof.
  intros Hsel Hc Hfile. unfold cmd_sync.
  by rewrite Hsel, (proj2 (truthy_JStr c) Hc), Hfile.
Qed.

Lemma cmd_list_malformed number d c :
  selected_course d = inr (JStr c) -> c <> "" ->
  d !! notes_file c = Some Malformed ->
  cmd_list number d = Some (Uncaught JSONDecodeError, d).
Proof.
  intros Hsel Hc Hfile. unfold cmd_list.
  rewrite Hsel, (proj2 (truthy_JStr c) Hc). cbn. by rewrite Hfile.
Qed.

(** The selected course with a notes file that does not parse. *)
Definition disk_garbled : disk := <[notes_file "French" := Malformed]> disk_french.

(** C3 at a notes file that does not parse: the loader of the
    note-creation command reads it as the empty mapping, while the sync
    and list commands let the [JSONDecodeError] of [json.load] escape.
    The other loaders behave as the claim says: a missing or malformed
    global configuration gives the default, a missing course
    configuration gives [None] and a malformed one raises. *)
Theorem malformed_notes_file :
  load_notes_lenient (notes_file "French") disk_garbled = JObj []
  /\ cmd_sync toy_world disk_garbled []
     = (Uncaught JSONDecodeError, disk_garbled, [], [])
  /\ cmd_list 5 disk_garbled = Some (Uncaught JSONDecodeError, disk_garbled)
  /\ load_global_config ∅ = default_global_config
  /\ load_global_config (<[CONFIG_FILE := Malformed]> ∅) = default_global_config
  /\ load_course_config (JStr "French") ∅ = inr JNull
  /\ load_course_config (JStr "French") (<[course_file "French" := Malformed]> ∅)
     = inl JSONDecodeError.
Proof.
  split; [by apply load_notes_lenient_malformed|].
  split; [by apply (cmd_sync_malformed _ _ _ "French")|].
  split; [by apply (cmd_list_malformed _ _ "French")|].
  split; [apply load_global_config_default; by left|].
  split; [apply load_global_config_default; by right|].
  split; [by apply load_course_config_missing|].
  by apply load_course_config_malformed.
Qed.

(** ** Listing the recent notes *)

(** The sort key in the words of the specification: the [added]
    timestamp, or the empty string when the note has none. *)
Definition added_of (v : json) : string :=
  match v with
  | JObj note =>
      match dict_get "added" note with
      | Some (JStr s) => s
      | _ => ""
      end
  | _ => ""
  end.

(** Every note is an object whose [added], when it is there, is a
    string, as [cmd_new] writes it. *)
Definition timestamps_ok (items : dict) : Prop :=
  Forall (fun kv : string * json =>
            exists note, kv.2 = JObj note
              /\ (dict_get "added" note = None
                  \/ exists s, dict_get "added" note = Some (JStr s))) items.

(** [x] comes before [y] in the listing: its timestamp is not older. *)
Definition newer_first (x y : string * json) : Prop :=
  String.le (added_of y.2) (added_of x.2).

Lemma ltb_false_le x y : String.ltb x y = false -> String.le y x.
Proof.
  unfold String.ltb, String.le, String.leb. rewrite (String.compare_antisym x y).
  by destruct (String.compare y x).
Qed.

Lemma ltb_true_le x y : String.ltb x y = true -> String.le x y.
Proof.
  unfold String.ltb, String.le, String.leb. by destruct (String.compare x y).
Qed.

Lemma ltb_true_ne x y : String.ltb x y = true -> x <> y.
Proof.
  unfold String.ltb. intros H ->.
  assert (String.compare y y = Eq) as E; [|by rewrite E in H].
  pose proof (String.compare_antisym y y) as Ha.
  by destruct (String.compare y y).
Qed.

Section sorting.
Context {X : Type}.

Implicit Types (x : string * X) (l : list (string * X)).

Definition before (x y : string * X) : Prop := String.le y.1 x.1.

Lemma insert_desc_perm x l : insert_desc x l ≡ₚ x :: l.
Proof.
  induction l as [|y l IH]; cbn; [done|].
  destruct (String.ltb x.1 y.1); [|done].
  rewrite IH. apply Permutation_swap.
Qed.

Lemma sorted_desc_perm l : sorted_desc l ≡ₚ l.
Proof.
  induction l as [|x l IH]; cbn; [done|].
  by rewrite insert_desc_perm, IH.
Qed.

Lemma insert_desc_sorted x l :
  StronglySorted before l -> StronglySorted before (insert_desc x l).
Proof.
  induction 1 as [|y l Hs IH Hy]; cbn; [repeat constructor|].
  destruct (String.ltb x.1 y.1) eqn:E.
  - constructor; [done|]. rewrite insert_desc_perm. constructor; [|done].
    by apply ltb_true_le.
  - constructor; [by constructor|]. apply ltb_false_le in E.
    constructor; [done|]. eapply Forall_impl; [exact Hy|].
    intros z Hz. unfold before in *. by etrans.
Qed.

Lemma sorted_desc_sorted l : StronglySorted before (sorted_desc l).
Proof.
  induction l as [|x l IH]; cbn; [constructor|]. by apply insert_desc_sorted.
Qed.

Lemma insert_desc_filter s x l :
  filter (fun y => y.1 = s) (insert_desc x l)
  = filter (fun y => y.1 = s) (x :: l).
Proof.
  induction l as [|y l IH]; cbn; [done|].
  destruct (String.ltb x.1 y.1) eqn:E; [|done].
  rewrite !filter_cons in *. rewrite IH.
  destruct (decide (x.1 = s)) as [Hx|Hx]; [|done].
  destruct (decide (y.1 = s)) as [Hy|Hy]; [|done].
  apply ltb_true_ne in E. congruence.
Qed.

(** The sort is stable: entries with the same key keep their order. *)
Lemma sorted_desc_stable s l :
  filter (fun y => y.1 = s) (sorted_desc l) = filter (fun y => y.1 = s) l.
Proof.
  induction l as [|x l IH]; [done|].
  change (sorted_desc (x :: l)) with (insert_desc x (sorted_desc l)).
  by rewrite insert_desc_filter, !filter_cons, IH.
Qed.

End sorting.

Lemma sorted_fmap {X Y} (R1 : relation X) (R2 : relation Y) (P : X -> Prop)
    (f : X -> Y) (l : list X) :
  (forall x y, P x -> P y -> R1 x y -> R2 (f x) (f y)) ->
  Forall P l -> StronglySorted R1 l -> StronglySorted R2 (f <$> l).
Proof.
  intros HR HP Hs. induction Hs as [|x l Hs IH Hx]; cbn; [constructor|].
  apply Forall_cons in HP as [Hpx HP]. constructor; [by apply IH|].
  apply Forall_fmap. apply Forall_forall. intros y Hy.
  rewrite Forall_forall in Hx, HP. apply HR; auto.
Qed.

Lemma filter_fmap_keyed {X} (key : X -> string) (s : string) (l : list (string * X)) :
  Forall (fun p => p.1 = key p.2) l ->
  filter (fun x => key x = s) l.*2 = (filter (fun p => p.1 = s) l).*2.
Proof.
  induction 1 as [|p l Hp Hl IH]; [done|].
  rewrite fmap_cons, !filter_cons, IH, Hp.
  by destruct (decide (key p.2 = s)).
Qed.

Lemma decorate_ok items :
  timestamps_ok items ->
  exists keyed,
    decorate items = inr keyed
    /\ string_keys keyed
       = Some ((fun kv : string * json => (added_of kv.2, kv)) <$> items).
Proof.
  induction 1 as [|[k v] items (note & Hv & Ha) Hs (keyed & Hd & Hk)]; cbn.
  - by exists [].
  - cbn in Hv. subst v. rewrite Hd. cbn.
    destruct Ha as [Ha|[s Ha]]; rewrite Ha; cbn; eexists; (split; [done|]);
      cbn; by rewrite Hk.
Qed.

Lemma StronglySorted_lookup {X} (R : relation X) (l : list X) i j x y :
  StronglySorted R l -> l !! i = Some x -> l !! j = Some y -> (i < j)%nat -> R x y.
Proof.
  intros Hs. revert i j. induction Hs as [|z l Hs IH Hz]; intros i j; [done|].
  destruct i as [|i], j as [|j]; cbn; try lia.
  - intros [= ->] Hy _. rewrite Forall_forall in Hz. apply Hz.
    by eapply list_elem_of_lookup_2.
  - intros Hx Hy Hij. apply (IH i j); [done..|lia].
Qed.

Lemma le_empty s : String.le s "" -> s = "".
Proof. by destruct s. Qed.

Lemma keyed_items (items : dict) :
  ((fun kv : string * json => (added_of kv.2, kv)) <$> items).*2 = items.
Proof. rewrite <- list_fmap_compose. apply list_fmap_id. Qed.

(** C7 (amended): for a collection whose notes are objects with a
    string (or no) [added] and a limit that is not negative, the listing
    is the beginning of the collection ordered by [added], newest first,
    a note without [added] counting as the empty string and so coming
    after every note that has a non-empty one; notes with equal
    timestamps keep the order of the file.  The beginning has [limit]
    entries, and 5 when the limit given is 0.  The files are not
    touched. *)
Theorem cmd_list_recent (number : Z) (d : disk) (c : string) (items : dict) :
  selected_course d = inr (JStr c) -> c <> "" ->
  d !! notes_file c = Some (Parsed (JObj items)) ->
  timestamps_ok items ->
  0 <= number ->
  exists sorted_notes,
    cmd_list number d
    = Some (Done (Listed (take (Z.to_nat (if number =? 0 then 5 else number))
                            sorted_notes)), d)
    /\ sorted_notes ≡ₚ items
    /\ StronglySorted newer_first sorted_notes
    /\ (forall s, filter (fun x => added_of x.2 = s) sorted_notes
                  = filter (fun x => added_of x.2 = s) items)
    /\ (forall i j x y,
           sorted_notes !! i = Some x -> sorted_notes !! j = Some y ->
           (i < j)%nat -> added_of x.2 = "" -> added_of y.2 = "").
Proof.
  intros Hsel Hc Hfile Hts Hnum.
  destruct (decorate_ok items Hts) as (keyed & Hd & Hk).
  set (l := (fun kv : string * json => (added_of kv.2, kv)) <$> items) in *.
  assert (Forall (fun p : string * (string * json) => p.1 = added_of p.2.2)
            (sorted_desc l)) as Hinv.
  { rewrite sorted_desc_perm. unfold l. apply Forall_fmap. by apply Forall_true. }
  assert (StronglySorted newer_first (sorted_desc l).*2) as Hsorted.
  { apply (sorted_fmap before newer_first
             (fun p : string * (string * json) => p.1 = added_of p.2.2)); [|done|].
    - intros x y Hx Hy. unfold before, newer_first. by rewrite Hx, Hy.
    - apply sorted_desc_sorted. }
  exists (sorted_desc l).*2. split; [|split; [|split; [done|split]]].
  - unfold cmd_list. rewrite Hsel, (proj2 (truthy_JStr c) Hc). cbn [negb notes_path].
    rewrite Hfile, Hd, Hk. unfold slice_to, list_limit.
    destruct (number =? 0) eqn:E; [done|].
    by rewrite (proj2 (Z.ltb_ge number 0)) by lia.
  - rewrite sorted_desc_perm. unfold l. by rewrite keyed_items.
  - intros s.
    rewrite (filter_fmap_keyed (fun x : string * json => added_of x.2)) by done.
    rewrite sorted_desc_stable.
    rewrite <- (filter_fmap_keyed (fun x : string * json => added_of x.2)).
    + unfold l. by rewrite keyed_items.
    + unfold l. apply Forall_fmap. by apply Forall_true.
  - intros i j x y Hx Hy Hij Hempty.
    pose proof (StronglySorted_lookup _ _ _ _ _ _ Hsorted Hx Hy Hij) as Hle.
    unfold newer_first in Hle. rewrite Hempty in Hle. by apply le_empty.
Qed.

(** Seven notes, one of them without a timestamp and two with the same. *)
Definition stamped (added : string) : json := JObj [("added", JStr added)].

Definition listed_notes : dict :=
  [("a", stamped "2024-05-01"); ("b", JObj [("term", JStr "b")]);
   ("c", stamped "2024-05-03"); ("d", stamped "2024-05-01");
   ("e", stamped "2024-05-02"); ("f", stamped "2024-04-01");
   ("g", stamped "2024-04-02")].

Definition disk_list : disk :=
  <[notes_file "French" := Parsed (JObj listed_notes)]> disk_french.

Lemma listed_notes_ok : timestamps_ok listed_notes.
Proof.
  unfold timestamps_ok, listed_notes, stamped.
  repeat (constructor;
          [eexists; split; [reflexivity|(by left) || (right; by eexists)]|]).
  constructor.
Qed.

Lemma cmd_list_recent_witness :
  exists sorted_notes,
    cmd_list 2 disk_list = Some (Done (Listed (take 2 sorted_notes)), disk_list)
    /\ take 2 sorted_notes
       = [("c", stamped "2024-05-03"); ("e", stamped "2024-05-02")]
    /\ sorted_notes ≡ₚ listed_notes
    /\ StronglySorted newer_first sorted_notes.
Proof.
  destruct (cmd_list_recent 2 disk_list "French" listed_notes
              eq_refl ltac:(discriminate) eq_refl listed_notes_ok ltac:(lia))
    as (sorted_notes & Hrun & Hperm & Hsorted & _).
  exists sorted_notes. split; [exact Hrun|]. split; [|by split].
  assert (cmd_list 2 disk_list
          = Some (Done (Listed [("c", stamped "2024-05-03");
                                ("e", stamped "2024-05-02")]), disk_list)) as Hc
    by (vm_compute; reflexivity).
  rewrite Hc in Hrun. by injection Hrun.
Defined.

(** C7, as stated, fails at the limit 0: the listing has five entries,
    not none. *)
Lemma cmd_list_zero_lists_five :
  exists recent,
    cmd_list 0 disk_list = Some (Done (Listed recent), disk_list)
    /\ recent.*1 = ["c"; "e"; "a"; "d"; "g"]
    /\ recent <> take 0 recent.
Proof.
  eexists. split; [vm_compute; reflexivity|]. split; [reflexivity|discriminate].
Qed.

(** ** The [synced] flag across commands *)

Lemma cmd_course_keeps {A} (w : World A) name answer1 answer2 d p items :
  d !! p = Some (Parsed (JObj items)) -> p <> CONFIG_FILE ->
  (cmd_course w name answer1 answer2 d).2 !! p = d !! p.
Proof.
  intros Hp Hne. unfold cmd_course, load_course_config. cbn [course_path].
  destruct (d !! course_file name) as [[loaded|]|] eqn:Hfile; [|done|].
  - assert (loaded = JNull -> course_file name <> p) as Hnull.
    { intros -> <-. by rewrite Hfile in Hp. }
    destruct loaded; cbn;
      repeat case_match; cbn; unfold save_global_config;
      rewrite ?lookup_insert_ne by auto; done.
  - assert (course_file name <> p) as Hnew.
    { intros <-. by rewrite Hfile in Hp. }
    cbn. repeat case_match; cbn; unfold save_global_config;
      rewrite ?lookup_insert_ne by auto; done.
Qed.

Lemma cmd_level_cases level d o d' :
  cmd_level level d = (o, d') ->
  d' = d
  \/ exists cur cfg,
      selected_course d = inr (JStr cur)
      /\ d !! course_file cur = Some (Parsed (JObj cfg))
      /\ d' = <[course_file cur :=
                  Parsed (JObj (dict_set "current_level" (JStr level) cfg))]> d.
Proof.
  unfold cmd_level. destruct (selected_course d) as [e|cur]; [by intros [= _ <-]; left|].
  destruct (truthy cur); cbn [negb]; [|by intros [= _ <-]; left].
  unfold load_course_config, save_course_config.
  destruct cur as [| | |c| |]; cbn [course_path]; try (by intros [= _ <-]; left).
  destruct (d !! course_file c) as [[cfg|]|] eqn:Hfile; try (by intros [= _ <-]; left).
  destruct cfg as [| | | | |cfg]; cbn; try (by intros [= _ <-]; left).
  intros [= _ <-]. right. by exists c, cfg.
Qed.

Lemma cmd_new_cases {A} (w : World A) phrase context grammar d o d' :
  cmd_new w phrase context grammar d = (o, d') ->
  d' = d \/ exists term_key note_data, o = Done (NoteAdded term_key note_data).
Proof.
  unfold cmd_new. intros H.
  repeat case_match; simplify_eq; (by left) || (right; eauto).
Qed.

Lemma cmd_sync_cases {A} (w : World A) d a o d' a' cs :
  cmd_sync w d a = (o, d', a', cs) -> d' = d \/ exists r, o = Done r.
Proof.
  unfold cmd_sync. intros H.
  repeat case_match; simplify_eq; (by left) || (right; eauto).
Qed.

Lemma cmd_list_keeps number d o d' : cmd_list number d = Some (o, d') -> d' = d.
Proof.
  unfold cmd_list. intros H. repeat case_match; by simplify_eq.
Qed.

Lemma add_metadata_synced {A} (w : World A) level context grammar parsed note_data :
  add_metadata w level context grammar parsed = inr note_data ->
  py_get note_data "synced" JNull = inr (JBool false).
Proof.
  intros (fields & -> & ->)%add_metadata_inv. cbn. unfold opt_set.
  destruct (given grammar), (given context);
    by rewrite ?dict_get_set_ne, dict_get_set_eq by done.
Qed.

Lemma enrich_inv {A} (w : World A) key prompt phrase level context grammar nd t n nd' :
  enrich w key prompt phrase level context grammar nd = inr (t, n, nd') ->
  py_get n "synced" JNull = inr (JBool false) /\ store_note nd t n = inr nd'.
Proof.
  unfold enrich. intros H. repeat case_match; try done.
  injection H as <- <- <-. split; [by eapply add_metadata_synced|].
  congruence.
Qed.

Lemma synced_not_pushed items u k note ls :
  NoDup (keys items) -> unsynced_of items = inr u ->
  dict_get k items = Some (JObj note) -> is_synced note = true ->
  line_term <$> ls = u.*1 -> k ∉ synced_terms ls.
Proof.
  intros Hnd Hu Hget Hs Hterms Hin%elem_of_synced_terms.
  apply (list_elem_of_fmap_2 line_term) in Hin. rewrite Hterms in Hin.
  apply list_elem_of_fmap in Hin as ([k' n] & Heq & Hin).
  cbn in Heq. subst k'.
  destruct (unsynced_of_elem _ _ Hu _ _ Hin) as [Hitem Hn].
  rewrite (dict_get_elem _ _ _ Hnd Hitem) in Hget. injection Hget as ->.
  congruence.
Qed.

(** A note that is synced stays as it is under every command, with two
    exceptions the code makes: the note-creation command replaces the
    entry when it stores its new, unsynced note under the same key; and
    the level command writes [current_level] into the file when the
    file is at the same time the configuration file of the selected
    course (the course [x_notes] and the notes of the course [x]). *)
Theorem synced_note_kept {A} (w : World A) (cmd : command) (d d' : disk)
    (a a' : A) (o : outcome) (c k : string) (items note : dict) :
  dicts_ok d ->
  d !! notes_file c = Some (Parsed (JObj items)) ->
  dict_get k items = Some (JObj note) ->
  is_synced note = true ->
  run w cmd d a = Some (o, d', a') ->
  (exists items',
      d' !! notes_file c = Some (Parsed (JObj items'))
      /\ dict_get k items' = Some (JObj note))
  \/ (exists phrase context grammar term_key note_data items',
         cmd = New phrase context grammar
         /\ o = Done (NoteAdded term_key note_data)
         /\ dump_key term_key = inr k
         /\ d' !! notes_file c = Some (Parsed (JObj items'))
         /\ dict_get k items' = Some note_data
         /\ py_get note_data "synced" JNull = inr (JBool false))
  \/ (exists level cur,
         cmd = Level level
         /\ selected_course d = inr (JStr cur)
         /\ course_file cur = notes_file c
         /\ k = "current_level"
         /\ d' !! notes_file c
            = Some (Parsed (JObj (dict_set "current_level" (JStr level) items)))).
Proof.
  intros Hok Hfile Hget Hs Hrun.
  assert (d' = d ->
          exists items', d' !! notes_file c = Some (Parsed (JObj items'))
                         /\ dict_get k items' = Some (JObj note)) as Hsame.
  { intros ->. by exists items. }
  destruct cmd as [name a1 a2|level|phrase context grammar| |number]; cbn in Hrun.
  - (* course *)
    destruct (cmd_course w name a1 a2 d) as [o0 d0] eqn:E.
    injection Hrun as <- <- <-. left. exists items. split; [|done].
    pose proof (cmd_course_keeps w name a1 a2 d _ _ Hfile (notes_file_CONFIG c)) as Hk.
    rewrite E in Hk. cbn in Hk. by rewrite Hk.
  - (* level *)
    destruct (cmd_level level d) as [o0 d0] eqn:E. injection Hrun as <- <- <-.
    apply cmd_level_cases in E as [->|(cur & cfg & Hsel & Hcfg & ->)]; [left; auto|].
    destruct (decide (course_file cur = notes_file c)) as [Heq|Hne].
    + rewrite Heq in *. rewrite Hfile in Hcfg. injection Hcfg as <-.
      destruct (decide (k = "current_level")) as [->|Hk].
      * right. right. exists level, cur. by rewrite lookup_insert_eq.
      * left. eexists. rewrite lookup_insert_eq. split; [done|].
        by rewrite dict_get_set_ne.
    + left. exists items. by rewrite lookup_insert_ne.
  - (* new *)
    destruct (cmd_new w phrase context grammar d) as [o0 d0] eqn:E.
    injection Hrun as <- <- <-.
    destruct (cmd_new_cases _ _ _ _ _ _ _ E) as [->|(t & n & ->)]; [left; auto|].
    apply cmd_new_Done_inv in E
      as (cur & cfg & lv & prompt & key & nd' & Hsel & Hc & Hload & Hp & Hkey & He & ->).
    destruct (decide (notes_file cur = notes_file c)) as [Heq|Hne];
      [|left; exists items; by rewrite lookup_insert_ne].
    rewrite Heq in *. apply enrich_inv in He as [Hsynced Hstore].
    unfold load_notes_lenient in Hstore. rewrite Hfile in Hstore. cbn in Hstore.
    destruct (dump_key t) as [e|k0] eqn:Hk0; [done|]. injection Hstore as <-.
    destruct (decide (k0 = k)) as [->|Hk].
    + right. left. exists phrase, context, grammar, t, n. eexists.
      rewrite lookup_insert_eq. repeat split; try done. apply dict_get_set_eq.
    + left. eexists. rewrite lookup_insert_eq. split; [done|].
      by rewrite dict_get_set_ne.
  - (* sync *)
    destruct (cmd_sync w d a) as [[[o0 d0] a0] cs] eqn:E. injection Hrun as <- <- <-.
    destruct (cmd_sync_cases _ _ _ _ _ _ _ E) as [->|[r ->]]; [left; auto|].
    pose proof (cmd_sync_Done_inv _ _ _ _ _ _ _ E)
      as (cur & items0 & u & cfg & deck & a1 & Hsel & Hc & Hfile0 & Hu & Hne
          & Himp & Hload & Htop & Hdeck).
    destruct (cmd_sync_run w d a a1 cur items0 u cfg deck)
      as (ls & a2 & cs2 & Hrun2 & Hb & Hterms); try done; [by eapply Hok|].
    rewrite E in Hrun2. injection Hrun2 as -> -> -> ->. left.
    destruct (decide (notes_file cur = notes_file c)) as [Heq|Hneq];
      [|exists items; by rewrite lookup_insert_ne].
    rewrite Heq in *. rewrite Hfile in Hfile0. injection Hfile0 as <-.
    eexists. rewrite lookup_insert_eq. split; [done|].
    rewrite dict_get_mark_all, Hget. cbn.
    rewrite bool_decide_eq_false_2; [done|].
    eapply synced_not_pushed; eauto.
  - (* list *)
    destruct (cmd_list number d) as [[o0 d0]|] eqn:E; [|done].
    injection Hrun as <- <- <-. apply cmd_list_keeps in E as ->. left. auto.
Qed.

Lemma disk_sync_ok : dicts_ok disk_sync.
Proof.
  unfold disk_sync, disk_french.
  repeat (apply dicts_ok_insert;
          [intros items [= <-]; by apply NoDup_keys_compute|]).
  apply dicts_ok_empty.
Qed.

Lemma synced_note_kept_witness :
  (exists o d' a' items',
      run toy_world Sync disk_sync [] = Some (o, d', a')
      /\ d' !! notes_file "French" = Some (Parsed (JObj items'))
      /\ dict_get "bonjour" items' = Some (note_at "bonjour" "Beginner" true))
  /\ (exists o d' a' items' note_data,
         run toy_world (New "bonjour" None None) disk_sync [] = Some (o, d', a')
         /\ d' !! notes_file "French" = Some (Parsed (JObj items'))
         /\ dict_get "bonjour" items' = Some note_data
         /\ py_get note_data "synced" JNull = inr (JBool false)).
Proof.
  split.
  - destruct (run toy_world Sync disk_sync []) as [[[o d'] a']|] eqn:E;
      [|by vm_compute in E].
    exists o, d', a'.
    destruct (synced_note_kept toy_world Sync disk_sync d' [] a' o "French" "bonjour"
                french_notes
                [("term", JStr "bonjour"); ("added", JStr "2024-04-30T09:00:00");
                 ("level", JStr "Beginner"); ("synced", JBool true)]
                disk_sync_ok eq_refl eq_refl eq_refl E)
      as [(items' & H1 & H2)|[(? & ? & ? & ? & ? & ? & Hcmd & _)|(? & ? & Hcmd & _)]];
      [|discriminate Hcmd..].
    exists items'. by split.
  - destruct (run toy_world (New "bonjour" None None) disk_sync [])
      as [[[o d'] a']|] eqn:E; [|by vm_compute in E].
    exists o, d', a'.
    destruct (synced_note_kept toy_world (New "bonjour" None None) disk_sync d' [] a' o
                "French" "bonjour" french_notes
                [("term", JStr "bonjour"); ("added", JStr "2024-04-30T09:00:00");
                 ("level", JStr "Beginner"); ("synced", JBool true)]
                disk_sync_ok eq_refl eq_refl eq_refl E)
      as [(items' & H1 & H2)|[(? & ? & ? & t & n & items' & _ & _ & _ & H1 & H2 & H3)
                              |(? & ? & Hcmd & _)]];
      [|by exists items', n|discriminate Hcmd].
    exfalso. vm_compute in E. injection E as <- <- <-.
    vm_compute in H1. injection H1 as <-. by vm_compute in H2.
Defined.

(** ** Selecting and creating a course *)

(** The two answers typed when a course is created, lines 140-152. *)
Definition answered_language (answer1 : string) : bool :=
  String.eqb (Str.lower (Str.strip answer1)) "y".

Definition answered_prompt {A} (w : World A) (answer1 answer2 : string) : string :=
  if String.eqb (Str.strip answer2) ""
  then (if answered_language answer1 then language_ai_prompt w
        else default_ai_prompt w)
  else Str.strip answer2.

Lemma selected_course_saved g v d :
  selected_course (save_global_config (JObj (dict_set "current_course" v g)) d)
  = inr v.
Proof.
  unfold selected_course, load_global_config, save_global_config.
  rewrite lookup_insert_eq. cbn. by rewrite dict_get_set_eq.
Qed.

Lemma cmd_course_new_disk {A} (w : World A) name answer1 answer2 d g :
  load_global_config d = JObj g ->
  d !! course_file name = None ->
  cmd_course w name answer1 answer2 d
  = (Done (CourseSet true),
     save_global_config (JObj (dict_set "current_course" (JStr name) g))
       (<[course_file name :=
            Parsed (new_course_config w name (answered_language answer1)
                      (answered_prompt w answer1 answer2))]> d)).
Proof.
  intros Hg Hfile. unfold cmd_course, load_course_config. cbn [course_path].
  by rewrite Hfile, Hg.
Qed.

Lemma load_course_config_saved name cfg g d :
  load_course_config (JStr name)
    (save_global_config g (<[course_file name := Parsed cfg]> d))
  = inr cfg.
Proof.
  unfold load_course_config, save_global_config. cbn.
  rewrite lookup_insert_ne by (symmetry; apply course_file_CONFIG).
  by rewrite lookup_insert_eq.
Qed.

(** Selecting a course that has a configuration: the command completes
    without asking anything, records the name as [current_course] in the
    global configuration, keeping its other keys, and writes nothing
    else; the configuration of the course is not rewritten. *)
Theorem cmd_course_existing {A} (w : World A) (name answer1 answer2 : string)
    (d : disk) (g cfg : dict) :
  load_global_config d = JObj g ->
  d !! course_file name = Some (Parsed (JObj cfg)) ->
  cmd_course w name answer1 answer2 d
  = (Done (CourseSet false),
     <[CONFIG_FILE := Parsed (JObj (dict_set "current_course" (JStr name) g))]> d)
  /\ selected_course (cmd_course w name answer1 answer2 d).2 = inr (JStr name)
  /\ load_course_config (JStr name) (cmd_course w name answer1 answer2 d).2
     = inr (JObj cfg).
Proof.
  intros Hg Hfile.
  assert (cmd_course w name answer1 answer2 d
          = (Done (CourseSet false),
             <[CONFIG_FILE := Parsed (JObj (dict_set "current_course" (JStr name) g))]> d))
    as Hrun.
  { unfold cmd_course, load_course_config. cbn [course_path].
    rewrite Hfile, Hg. reflexivity. }
  rewrite Hrun. split; [done|]. split; [apply selected_course_saved|].
  unfold load_course_config. cbn.
  by rewrite lookup_insert_ne, Hfile by (symmetry; apply course_file_CONFIG).
Qed.

(** Selecting a course that has no configuration file: the command
    writes the configuration of the new course (the name, the creation
    time, the answer to the language question, no level, the prompt
    typed or else the built-in one for the kind of course) and then
    records the name in the global configuration; no other file
    changes. *)
Theorem cmd_course_new {A} (w : World A) (name answer1 answer2 : string)
    (d : disk) (g : dict) :
  load_global_config d = JObj g ->
  d !! course_file name = None ->
  exists d',
    cmd_course w name answer1 answer2 d = (Done (CourseSet true), d')
    /\ selected_course d' = inr (JStr name)
    /\ load_course_config (JStr name) d'
       = inr (new_course_config w name (answered_language answer1)
                (answered_prompt w answer1 answer2))
    /\ d' !! CONFIG_FILE
       = Some (Parsed (JObj (dict_set "current_course" (JStr name) g)))
    /\ (forall p, p <> CONFIG_FILE -> p <> course_file name -> d' !! p = d !! p).
Proof.
  intros Hg Hfile. eexists. split.
  { unfold cmd_course, load_course_config. cbn [course_path].
    rewrite Hfile, Hg. reflexivity. }
  split; [apply selected_course_saved|].
  unfold save_global_config. split; [|split].
  - unfold load_course_config. cbn.
    rewrite lookup_insert_ne by (symmetry; apply course_file_CONFIG).
    by rewrite lookup_insert_eq.
  - by rewrite lookup_insert_eq.
  - intros p H1 H2. by rewrite !lookup_insert_ne.
Qed.

Lemma cmd_course_existing_witness :
  cmd_course toy_world "French" "y" "ignored" disk_french
  = (Done (CourseSet false), disk_french)
  /\ load_course_config (JStr "French")
       (cmd_course toy_world "French" "y" "ignored" disk_french).2
     = inr french_config.
Proof.
  destruct (cmd_course_existing toy_world "French" "y" "ignored" disk_french
              [("current_course", JStr "French")] _ eq_refl eq_refl) as (H & _ & H3).
  split; [|exact H3]. rewrite H. f_equal.
Defined.

Lemma cmd_course_new_witness :
  exists d',
    cmd_course toy_world "French" " Y " "" ∅ = (Done (CourseSet true), d')
    /\ selected_course d' = inr (JStr "French")
    /\ load_course_config (JStr "French") d'
       = inr (new_course_config toy_world "French" true
                "Translate {phrase} for {course}.").
Proof.
  destruct (cmd_course_new toy_world "French" " Y " "" ∅ [("current_course", JNull)])
    as (d' & H1 & H2 & H3 & _); [reflexivity..|].
  exists d'. split; [exact H1|]. split; [exact H2|exact H3].
Defined.

(** ** Course, level and note in sequence *)

Lemma enrich_metadata {A} (w : World A) key prompt phrase level context grammar
    nd t n nd' :
  enrich w key prompt phrase level context grammar nd = inr (t, n, nd') ->
  exists parsed, add_metadata w level context grammar parsed = inr n.
Proof.
  unfold enrich. intros H. repeat case_match; try done.
  injection H as <- <- <-. eauto.
Qed.

Lemma add_metadata_level {A} (w : World A) level context grammar parsed note_data :
  add_metadata w level context grammar parsed = inr note_data ->
  py_get note_data "level" JNull = inr level.
Proof.
  intros (fields & -> & ->)%add_metadata_inv. cbn. unfold opt_set.
  destruct (given grammar), (given context);
    by rewrite ?dict_get_set_ne, dict_get_set_eq by done.
Qed.

(** The level a completed note creation stamps on the note is the
    value of [current_level] in the configuration of the selected
    course, whatever it is; the fallback ['general'] is used only when
    the configuration has no such key. *)
Lemma cmd_new_level {A} (w : World A) phrase context grammar d d' t n c cfg :
  cmd_new w phrase context grammar d = (Done (NoteAdded t n), d') ->
  selected_course d = inr (JStr c) ->
  load_course_config (JStr c) d = inr (JObj cfg) ->
  py_get n "level" JNull = inr (default (JStr "general") (dict_get "current_level" cfg)).
Proof.
  intros Hrun Hsel Hload.
  apply cmd_new_Done_inv in Hrun
    as (c' & cfg' & lv & prompt & key & nd' & Hsel' & Hc & Hload' & Hp & Hkey & He & ->).
  rewrite Hsel in Hsel'. injection Hsel' as <-.
  rewrite Hload in Hload'. injection Hload' as <-.
  apply build_prompt_level in Hp. cbn in Hp. injection Hp as <-.
  apply enrich_metadata in He as [parsed Hm]. by eapply add_metadata_level.
Qed.

(** A note added to a course that was just created, before any level
    is set, carries the level null: the configuration written by the
    course command has the key [current_level], so the fallback
    ['general'] of the note-creation command does not apply. *)
Theorem new_course_note_level {A} (w : World A) (name answer1 answer2 phrase : string)
    (context grammar : option string) (d d2 : disk) (g : dict) (t n : json) :
  load_global_config d = JObj g ->
  d !! course_file name = None ->
  cmd_new w phrase context grammar (cmd_course w name answer1 answer2 d).2
  = (Done (NoteAdded t n), d2) ->
  py_get n "level" JNull = inr JNull.
Proof.
  intros Hg Hfile Hrun.
  rewrite (cmd_course_new_disk w name answer1 answer2 d g Hg Hfile) in Hrun.
  cbn [snd] in Hrun.
  by rewrite (cmd_new_level w _ _ _ _ _ _ _ name _ Hrun
                (selected_course_saved _ _ _) (load_course_config_saved _ _ _ _)).
Qed.
